(** * Address screening: exact-match lookup after chain-aware canonicalization

    A shallow embedding of [examples/screen_address.py]: the canonicalizer,
    the syntax validator, the screening engine and the loader of the
    sanctioned set, with the properties of the engine proved over it.

    Text is modelled by [string] over ASCII code points: Python's
    [str.upper], [str.lower] and [str.strip] are embedded with their
    behaviour on code points below 128, which is where every chain ticker
    and every address pattern of the program lives.  Characters from 128 on
    are carried through unchanged by the model. *)

From Stdlib Require Import Ascii String NArith List Bool Lia.
From stdpp Require Import base decidable option gmap strings sorting.

Local Open Scope string_scope.
Local Open Scope N_scope.

(** The proofs below compute with [+:+] on texts that begin with known
    characters. *)
#[local] Arguments String.append !_ _ / : simpl nomatch.

(** ** Characters *)

Module Char.

Definition code (c : ascii) : N := N_of_ascii c.

Definition between (lo hi : N) (c : ascii) : bool :=
  (lo <=? code c) && (code c <=? hi).

(** [A-Z], [a-z], [0-9] *)
Definition is_upper : ascii -> bool := between 65 90.
Definition is_lower : ascii -> bool := between 97 122.
Definition is_digit : ascii -> bool := between 48 57.

(** [str.isspace] on ASCII: TAB, LF, VT, FF, CR, the four separators
    FS, GS, RS, US, and the space. *)
Definition is_space (c : ascii) : bool :=
  between 9 13 c || between 28 31 c || (code c =? 32).

Definition lower (c : ascii) : ascii :=
  if is_upper c then ascii_of_N (code c + 32) else c.

Definition upper (c : ascii) : ascii :=
  if is_lower c then ascii_of_N (code c - 32) else c.

(** The class [[a-fA-F0-9]] of [EVM_RE]. *)
Definition is_hex (c : ascii) : bool :=
  between 97 102 c || between 65 70 c || is_digit c.

(** The class [[a-z0-9]] of [BTC_BECH32_RE] under [re.IGNORECASE]. *)
Definition is_alnum_nocase (c : ascii) : bool :=
  is_lower c || is_upper c || is_digit c.

(** The class [[a-km-zA-HJ-NP-Z1-9]] of [BTC_BASE58_RE]. *)
Definition is_base58 (c : ascii) : bool :=
  between 97 107 c || between 109 122 c
  || between 65 72 c || between 74 78 c || between 80 90 c
  || between 49 57 c.

(** The class [[13]]. *)
Definition is_1_or_3 (c : ascii) : bool :=
  (code c =? 49) || (code c =? 51).

Definition is_newline (c : ascii) : bool := code c =? 10.

End Char.

(** ** Strings: the [str] methods the program calls *)

Module Str.

Fixpoint lower (s : string) : string :=
  match s with
  | EmptyString => EmptyString
  | String c s' => String (Char.lower c) (lower s')
  end.

Fixpoint upper (s : string) : string :=
  match s with
  | EmptyString => EmptyString
  | String c s' => String (Char.upper c) (upper s')
  end.

Fixpoint lstrip (s : string) : string :=
  match s with
  | EmptyString => EmptyString
  | String c s' => if Char.is_space c then lstrip s' else s
  end.

Fixpoint rstrip (s : string) : string :=
  match s with
  | EmptyString => EmptyString
  | String c s' =>
      match rstrip s' with
      | EmptyString => if Char.is_space c then EmptyString else String c EmptyString
      | r => String c r
      end
  end.

(** [s.strip()] *)
Definition strip (s : string) : string := rstrip (lstrip s).

(** [s.startswith(p)] *)
Fixpoint startswith (p s : string) : bool :=
  match p, s with
  | EmptyString, _ => true
  | String a p', String b s' => Ascii.eqb a b && startswith p' s'
  | String _ _, EmptyString => false
  end.

(** [s.startswith((p1, p2, ...))] with a tuple of prefixes. *)
Definition startswith_any (ps : list string) (s : string) : bool :=
  existsb (fun p => startswith p s) ps.

Fixpoint all (p : ascii -> bool) (s : string) : bool :=
  match s with
  | EmptyString => true
  | String c s' => p c && all p s'
  end.

(** [s.split(sep)] for a separator that is not empty: the text is cut
    at each occurrence of [sep], found from the left and not overlapping.
    [skip] counts the characters of an occurrence still to be passed. *)
Fixpoint split_from (sep : string) (skip : nat) (s : string) : list string :=
  match s with
  | EmptyString => [EmptyString]
  | String c s' =>
      match skip with
      | S k => split_from sep k s'
      | O =>
          if startswith sep s then EmptyString :: split_from sep (String.length sep - 1) s'
          else
            match split_from sep O s' with
            | part :: parts => String c part :: parts
            | [] => [String c EmptyString]
            end
      end
  end.

Definition split (sep s : string) : list string := split_from sep O s.

End Str.

(** ** The three compiled patterns

    Each pattern is anchored at both ends and is a fixed head followed by
    one bounded repetition of a character class, so matching is a single
    left-to-right scan. *)

Module Re.

(** The longest run of characters of class [p] at the head of [s]: its
    length and what follows it. *)
Fixpoint span (p : ascii -> bool) (s : string) : nat * string :=
  match s with
  | EmptyString => (O, EmptyString)
  | String c s' =>
      if p c then let '(n, rest) := span p s' in (S n, rest)
      else (O, s)
  end.

(** [$] without [re.MULTILINE]: the end of the text, or just before a
    newline that is its last character. *)
Definition at_end (s : string) : bool :=
  match s with
  | EmptyString => true
  | String c EmptyString => Char.is_newline c
  | _ => false
  end.

(** [[class]{lo,hi}$] for a class without the newline.  The repetition
    is greedy and gives characters back on failure, but a shorter run is
    followed by a character of the class, where [$] cannot hold: the
    whole run has to be taken. *)
Definition repeat_to_end (p : ascii -> bool) (lo hi : nat) (s : string) : bool :=
  let '(n, rest) := span p s in
  (lo <=? n)%nat && (n <=? hi)%nat && at_end rest.

(** A literal head: what follows it, when the text begins with it. *)
Fixpoint literal (lit s : string) : option string :=
  match lit, s with
  | EmptyString, _ => Some s
  | String a lit', String b s' =>
      if Ascii.eqb a b then literal lit' s' else None
  | String _ _, EmptyString => None
  end.

(** The same, compared without regard to case. *)
Fixpoint literal_nocase (lit s : string) : option string :=
  match lit, s with
  | EmptyString, _ => Some s
  | String a lit', String b s' =>
      if Ascii.eqb (Char.lower a) (Char.lower b) then literal_nocase lit' s' else None
  | String _ _, EmptyString => None
  end.

(** [EVM_RE = re.compile(r"^0x[a-fA-F0-9]{40}$")], with [.match]. *)
Definition EVM_RE (a : string) : bool :=
  match literal "0x" a with
  | Some rest => repeat_to_end Char.is_hex 40 40 rest
  | None => false
  end.

(** [BTC_BECH32_RE = re.compile(r"^(bc1|tb1|bcrt1)[a-z0-9]{20,90}$", re.IGNORECASE)] *)
Definition BTC_BECH32_RE (a : string) : bool :=
  existsb
    (fun hrp =>
       match literal_nocase hrp a with
       | Some rest => repeat_to_end Char.is_alnum_nocase 20 90 rest
       | None => false
       end)
    ["bc1"; "tb1"; "bcrt1"].

(** [BTC_BASE58_RE = re.compile(r"^[13][a-km-zA-HJ-NP-Z1-9]{25,34}$")] *)
Definition BTC_BASE58_RE (a : string) : bool :=
  match a with
  | String c rest => Char.is_1_or_3 c && repeat_to_end Char.is_base58 25 34 rest
  | EmptyString => false
  end.

End Re.

(** ** The screening engine *)

(** [{"ETH", "EVM", "ARB", "BSC", "OP", "MATIC"}] *)
Definition EVM_CHAINS : gset string :=
  {[ "ETH"; "EVM"; "ARB"; "BSC"; "OP"; "MATIC" ]}.

(** [{"XBT", "BTC"}] *)
Definition BTC_CHAINS : gset string := {[ "XBT"; "BTC" ]}.

Definition canonicalize (chain address : string) : string :=
  let a := Str.strip address in
  let c := Str.strip (Str.upper chain) in
  if bool_decide (c ∈ EVM_CHAINS) then Str.lower a
  else if bool_decide (c ∈ BTC_CHAINS) then
    if Str.startswith_any ["bc1"; "tb1"; "bcrt1"] (Str.lower a) then Str.lower a
    else a
  else a.

Definition syntactic_validate (chain address : string) : bool :=
  let c := Str.strip (Str.upper chain) in
  let a := Str.strip address in
  if bool_decide (c ∈ EVM_CHAINS) then Re.EVM_RE a
  else if bool_decide (c ∈ BTC_CHAINS) then
    Re.BTC_BECH32_RE (Str.lower a) || Re.BTC_BASE58_RE a
  else true.

(** ** Records of the engine *)

(** A naive [datetime.datetime] value. *)
Record datetime := {
  year : Z; month : Z; day : Z;
  hour : Z; minute : Z; second : Z; microsecond : Z
}.

#[local] Set Warnings "-register-all".

(** What [json.load] returns: [None], [bool], a number (kept as its
    literal, the program never computes with one), [str], [list] and
    [dict] (its keys are [str]). *)
Inductive json :=
| JNull
| JBool (b : bool)
| JNumber (literal : string)
| JStr (s : string)
| JList (items : list json)
| JDict (members : gmap string json).

(** [ListVersion].  A frozen dataclass checks no annotation: the loader
    stores in [source], [sha256] and [uri] whatever value the metadata
    block carries, so these three fields hold a JSON value ([JStr s] for
    a [str]). *)
Record ListVersion := {
  source : json;
  retrieved_at_utc : datetime;
  sha256 : json;
  uri : json
}.

Record ScreenResult := {
  address : string;
  chain : string;
  match_ : bool;
  risk_score : Z;
  reason : string;
  list_version : option ListVersion
}.

Definition screen_exact_match
    (chain address : string)
    (sanctioned_set : gset (string * string))
    (list_version : ListVersion) : ScreenResult :=
  if negb (syntactic_validate chain address) then
    {| address := address; chain := chain; match_ := false; risk_score := 0;
       reason := "invalid_address_syntax"; list_version := Some list_version |}
  else
    let addr_norm := canonicalize chain address in
    let hit := bool_decide ((Str.upper chain, addr_norm) ∈ sanctioned_set) in
    if hit then
      {| address := address; chain := chain; match_ := true; risk_score := 100;
         reason := "exact_match_authoritative_sanctions_address";
         list_version := Some list_version |}
    else
      {| address := address; chain := chain; match_ := false; risk_score := 0;
         reason := "no_exact_match"; list_version := Some list_version |}.

(** ** The loader of the sanctioned set

    [load_sanctioned_addresses] reads a file and hands its text to
    [json.load]; the embedding starts from the value [json.load] returned.
    An exception that leaves the function is a [Raise]. *)

Inductive exn := AttributeError | TypeError | KeyError | ValueError.

Inductive result (A : Type) :=
| Ok (a : A)
| Raise (e : exn).
Arguments Ok {A} a.
Arguments Raise {A} e.

#[global] Instance result_ret : MRet result := fun A a => Ok a.

#[global] Instance result_bind : MBind result := fun A B k r =>
  match r with
  | Ok a => k a
  | Raise e => Raise e
  end.

Module Py.

(** [d.get(key, fallback)]: only a [dict] has the method. *)
Definition get (d : json) (key : string) (fallback : json) : result json :=
  match d with
  | JDict members => Ok (default fallback (members !! key))
  | _ => Raise AttributeError
  end.

(** [item[key]] with a [str] key: a missing key of a [dict] is a
    [KeyError], any other value refuses the subscript. *)
Definition getitem (item : json) (key : string) : result json :=
  match item with
  | JDict members =>
      match members !! key with
      | Some v => Ok v
      | None => Raise KeyError
      end
  | _ => Raise TypeError
  end.

(** The receiver of [.strip()], [.upper()]: only a [str] has them. *)
Definition str_method (v : json) : result string :=
  match v with
  | JStr s => Ok s
  | _ => Raise AttributeError
  end.

(** [for item in v]: a [list] yields its items, a [str] its characters
    and a [dict] its keys; nothing else iterates.  The keys of a [dict]
    are all [str], and the loop body stops at the first [str] it meets,
    so the order they are listed in plays no role. *)
Definition iter (v : json) : result (list json) :=
  match v with
  | JList items => Ok items
  | JStr s => Ok ((fun c => JStr (String c EmptyString)) <$> list_ascii_of_string s)
  | JDict members => Ok (JStr <$> (map_to_list members).*1)
  | _ => Raise TypeError
  end.

End Py.

Section Loader.

(** [datetime.fromisoformat] on a [str]: [None] stands for its
    [ValueError]. *)
Variable fromisoformat : string -> option datetime.

Definition parse_retrieved_at (v : json) : result datetime :=
  match v with
  | JStr s =>
      match fromisoformat s with
      | Some d => Ok d
      | None => Raise ValueError
      end
  | _ => Raise TypeError
  end.

(** Lines 161-167: the metadata block, every field with its default. *)
Definition load_list_version (data : json) : result ListVersion :=
  metadata ← Py.get data "metadata" (JDict ∅);
  src ← Py.get metadata "source" (JStr "UNKNOWN");
  at_text ← Py.get metadata "retrieved_at_utc" (JStr "2000-01-01T00:00:00");
  at_utc ← parse_retrieved_at at_text;
  sha ← Py.get metadata "sha256" (JStr "");
  loc ← Py.get metadata "uri" (JStr "");
  Ok {| source := src; retrieved_at_utc := at_utc; sha256 := sha; uri := loc |}.

(** One turn of the loop of lines 170-174. *)
Definition load_entry (item : json) (sanctioned_set : gset (string * string))
    : result (gset (string * string)) :=
  chain ← Py.getitem item "chain";
  address ← Py.getitem item "address";
  a ← Py.str_method address;
  c ← Py.str_method chain;
  let canonical := canonicalize c a in
  Ok (sanctioned_set ∪ {[ (Str.upper c, canonical) ]}).

Fixpoint load_entries (items : list json) (sanctioned_set : gset (string * string))
    : result (gset (string * string)) :=
  match items with
  | [] => Ok sanctioned_set
  | item :: rest =>
      s ← load_entry item sanctioned_set;
      load_entries rest s
  end.

Definition load_sanctioned_addresses (data : json)
    : result (gset (string * string) * ListVersion) :=
  list_version ← load_list_version data;
  addresses ← Py.get data "addresses" (JList []);
  items ← Py.iter addresses;
  sanctioned_set ← load_entries items ∅;
  Ok (sanctioned_set, list_version).

End Loader.

(** ** A parser for the loader to run with

    [datetime.fromisoformat] on the layout [YYYY-MM-DDTHH:MM:SS], the one
    [datetime.isoformat] writes for a naive value with whole seconds and
    the one of the loader's default timestamp.  The library reads further
    layouts; the statements about the loader hold for any parser, and this
    one is what concrete documents are run with. *)

Module Iso.

Definition digit (c : ascii) : option Z :=
  if Char.is_digit c then Some (Z.of_N (Char.code c) - 48)%Z else None.

Fixpoint digits (s : string) (acc : Z) : option Z :=
  match s with
  | EmptyString => Some acc
  | String c s' =>
      match digit c with
      | Some d => digits s' (10 * acc + d)%Z
      | None => None
      end
  end.

Definition field (start len : nat) (s : string) : option Z :=
  digits (substring start len s) 0%Z.

Definition sep (i : nat) (c : ascii) (s : string) : bool :=
  match String.get i s with
  | Some c' => Ascii.eqb c c'
  | None => false
  end.

Definition is_leap (y : Z) : bool :=
  ((y mod 4 =? 0) && negb (y mod 100 =? 0) || (y mod 400 =? 0))%Z.

Definition days_in_month (y m : Z) : Z :=
  if (m =? 2)%Z then (if is_leap y then 29 else 28)%Z
  else if ((m =? 4) || (m =? 6) || (m =? 9) || (m =? 11))%Z then 30%Z
  else 31%Z.

Definition in_range (lo hi v : Z) : bool := ((lo <=? v) && (v <=? hi))%Z.

Definition fromisoformat_seconds (s : string) : option datetime :=
  if negb (Nat.eqb (String.length s) 19) then None
  else if negb (sep 4 "-" s && sep 7 "-" s && sep 10 "T" s
                && sep 13 ":" s && sep 16 ":" s) then None
  else
    y ← field 0 4 s; m ← field 5 2 s; d ← field 8 2 s;
    hh ← field 11 2 s; mm ← field 14 2 s; ss ← field 17 2 s;
    if in_range 1 9999 y && in_range 1 12 m && in_range 1 (days_in_month y m) d
       && in_range 0 23 hh && in_range 0 59 mm && in_range 0 59 ss
    then Some {| year := y; month := m; day := d;
                 hour := hh; minute := mm; second := ss; microsecond := 0 |}
    else None.

End Iso.

(** * The OFAC connector: [connectors/ofac_sdn_parser.py]

    [parse_ofac_sdn_xml] is embedded from the element tree that
    [ET.parse] built, and [export_by_chain] up to the values it hands to
    [json.dump]; what they print and the files they write are left out. *)

Module Xml.

(** An [xml.etree.ElementTree.Element]: its tag, its text ([None] when
    it has none) and its children in document order. *)
Inductive element := Element (tag : string) (text : option string) (children : list element).

Definition tag (e : element) : string := let '(Element t _ _) := e in t.
Definition text (e : element) : option string := let '(Element _ x _) := e in x.
Definition children (e : element) : list element := let '(Element _ _ cs) := e in cs.

(** [e.iter(t)]: [e] and the elements below it that carry the tag, in
    document order. *)
Fixpoint iter (t : string) (e : element) {struct e} : list element :=
  match e with
  | Element tg _ cs =>
      ((if String.eqb tg t then [e] else []) ++ flat_map (iter t) cs)%list
  end.

(** [e.findall('.//t')]: [e.iter(t)] without [e] itself. *)
Definition findall_below (t : string) (e : element) : list element :=
  flat_map (iter t) (children e).

(** [e.find('.//t')] *)
Definition find_below (t : string) (e : element) : option element :=
  head (findall_below t e).

(** [e.find('t')]: the first child with the tag. *)
Definition find (t : string) (e : element) : option element :=
  head (filter (fun c => tag c = t) (children e)).

End Xml.

Module Ofac.

Record DigitalCurrencyAddress := {
  uid : string;
  ticker : string;
  address : string;
  entity_name : option string
}.

Definition OFAC_TICKER_TO_CHAIN : gmap string string :=
  list_to_map
    [ ("XBT", "BTC"); ("BTC", "BTC"); ("ETH", "ETH"); ("TRX", "TRX");
      ("LTC", "LTC"); ("XMR", "XMR"); ("ZEC", "ZEC"); ("DASH", "DASH");
      ("BSV", "BSV"); ("BCH", "BCH"); ("BTG", "BTG"); ("ETC", "ETC");
      ("XVG", "XVG"); ("USDT", "USDT") ].

(** [f"{e.text}"]: a missing text prints as [None]. *)
Definition format_text (e : Xml.element) : string :=
  default "None" (Xml.text e).

(** Lines 64-72. *)
Definition entity_name_of (entry : Xml.element) : option string :=
  match Xml.find_below "firstName" entry, Xml.find_below "lastName" entry with
  | Some first_name, Some last_name =>
      Some (format_text first_name +:+ " " +:+ format_text last_name)
  | _, _ =>
      match Xml.find_below "name" entry with
      | Some entity_name_elem => Xml.text entity_name_elem
      | None => None
      end
  end.

(** Lines 90-91: the ticker out of a text such as
    [Digital Currency Address - XBT]. *)
Definition ticker_of (id_type_text : string) : string :=
  match Str.split " - " id_type_text with
  | _ :: part :: _ => Str.strip part
  | _ => "UNKNOWN"
  end.

(** [x or "UNKNOWN"] for an optional text. *)
Definition or_unknown (x : option string) : string :=
  match x with
  | Some EmptyString | None => "UNKNOWN"
  | Some s => s
  end.

(** One turn of the inner loop, lines 75-98: the record an [id] element
    gives, if any. *)
Definition address_of_id (uid_text entity_name : option string) (id_elem : Xml.element)
    : option DigitalCurrencyAddress :=
  match Xml.find "idType" id_elem, Xml.find "idNumber" id_elem with
  | Some id_type, Some id_number =>
      match Xml.text id_type, Xml.text id_number with
      | Some id_type_text, Some id_number_text =>
          if String.eqb id_type_text "" || String.eqb id_number_text "" then None
          else if Str.startswith "Digital Currency Address" id_type_text then
            Some {| uid := or_unknown uid_text;
                    ticker := ticker_of id_type_text;
                    address := Str.strip id_number_text;
                    entity_name := entity_name |}
          else None
      | _, _ => None
      end
  | _, _ => None
  end.

(** One turn of the outer loop, lines 59-98. *)
Definition addresses_of_entry (entry : Xml.element) : list DigitalCurrencyAddress :=
  let uid_text := Xml.find "uid" entry ≫= Xml.text in
  let entity_name := entity_name_of entry in
  omap (address_of_id uid_text entity_name) (Xml.findall_below "id" entry).

Definition parse_ofac_sdn_xml (root : Xml.element) : list DigitalCurrencyAddress :=
  flat_map addresses_of_entry (Xml.findall_below "sdnEntry" root).

(** [OFAC_TICKER_TO_CHAIN.get(addr.ticker, addr.ticker)] *)
Definition chain_of (addr : DigitalCurrencyAddress) : string :=
  default (ticker addr) (OFAC_TICKER_TO_CHAIN !! ticker addr).

(** [by_chain] is a [dict] read back in insertion order: a list of keys
    with their values, each key once.  One turn of the loop of lines
    118-122 appends to the list of the chain, which it enters at the end
    when the chain is new. *)
Fixpoint append_to (chain address : string) (by_chain : list (string * list string))
    : list (string * list string) :=
  match by_chain with
  | [] => [(chain, [address])]
  | (k, addrs) :: rest =>
      if String.eqb k chain then (k, (addrs ++ [address])%list) :: rest
      else (k, addrs) :: append_to chain address rest
  end.

Definition group_by_chain (addresses : list DigitalCurrencyAddress)
    : list (string * list string) :=
  fold_left (fun by_chain addr => append_to (chain_of addr) (address addr) by_chain)
    addresses [].

(** Line 127: [sorted(set(addrs))].  The order a [set] is read in does
    not show after sorting. *)
Definition unique_addrs (addrs : list string) : list string :=
  merge_sort String.le (elements (list_to_set addrs : gset string)).

(** The names of the two files of a chain, lines 130 and 136, under
    [output_dir]. *)
Definition json_name (chain : string) : string :=
  "ofac_" +:+ Str.lower chain +:+ "_addresses.json".

Definition txt_name (chain : string) : string :=
  "ofac_" +:+ Str.lower chain +:+ "_addresses.txt".

(** What the loop of lines 125-139 hands over for each chain, in the
    order of [by_chain.items()]: the name of the JSON file and the list
    dumped into it. *)
Definition exported_lists (addresses : list DigitalCurrencyAddress)
    : list (string * list string) :=
  (fun '(chain, addrs) => (json_name chain, unique_addrs addrs))
    <$> group_by_chain addresses.

End Ofac.

(** ** Vocabulary of the statements *)

(** The chain tag dispatches to the EVM rule, to the Bitcoin rule. *)
Definition evm_family (chain : string) : Prop :=
  Str.strip (Str.upper chain) ∈ EVM_CHAINS.

Definition bitcoin (chain : string) : Prop :=
  Str.strip (Str.upper chain) ∈ BTC_CHAINS.

(** The test of line 65 on an address: its trimmed form begins, without
    regard to case, with a native-segwit prefix. *)
Definition segwit_prefixed (address : string) : bool :=
  Str.startswith_any ["bc1"; "tb1"; "bcrt1"] (Str.lower (Str.strip address)).

(** The head of a left-trimmed text is not whitespace. *)
Definition no_space_head (s : string) : bool :=
  match s with
  | EmptyString => true
  | String c _ => negb (Char.is_space c)
  end.

(** The sanctioned set of [main]'s demonstration. *)
Definition demo_set : gset (string * string) :=
  {[ ("ETH", "0x7f367cc41522ce07553e823bf3be79a889debe1b");
     ("BTC", "bc1qxy2kgdygjrsqtzq2n0yrf2493p83kkfjhx0wlh") ]}.

(** Exactly forty hexadecimal characters, of either case. *)
Definition hex40 (h : string) : bool :=
  Nat.eqb (String.length h) 40 && Str.all Char.is_hex h.

(** The EVM rule of the validator as the specification words it: an
    optional [0x] prefix followed by exactly forty hexadecimal characters,
    and only that form.  Kept apart from [Re.EVM_RE], which is the
    pattern of the source, for the two to be compared. *)
Definition spec_evm_form (a : string) : bool :=
  match Re.literal "0x" a with
  | Some h => hex40 h
  | None => false
  end || hex40 a.

(** The list version of [main]'s demonstration, at a fixed instant. *)
Definition demo_version : ListVersion :=
  {| source := JStr "DEMO";
     retrieved_at_utc := {| year := 2026; month := 2; day := 15;
                            hour := 0; minute := 0; second := 0; microsecond := 0 |};
     sha256 := JStr "demo";
     uri := JStr "demo" |}.

(** What [main] prints of a result, for an address screened against the
    demonstration set. *)
Definition verdict (chain address : string) : bool * Z * string :=
  let r := screen_exact_match chain address demo_set demo_version in
  (match_ r, risk_score r, reason r).

(** [by_chain.get(chain)] on the list that stands for the [dict]. *)
Fixpoint by_chain_get (chain : string) (by_chain : list (string * list string))
    : option (list string) :=
  match by_chain with
  | [] => None
  | (k, addrs) :: rest => if String.eqb k chain then Some addrs else by_chain_get chain rest
  end.

(** The addresses of the records of a chain, in the order of the records. *)
Definition addresses_of_chain (chain : string) (addresses : list Ofac.DigitalCurrencyAddress)
    : list string :=
  Ofac.address <$> filter (fun r => Ofac.chain_of r = chain) addresses.

(** A small document of the shape the parser reads: two entries, three
    identifiers, two of them digital currency addresses. *)
Definition sample_sdn : Xml.element :=
  let leaf t x := Xml.Element t (Some x) [] in
  Xml.Element "sdnList" None
    [ Xml.Element "sdnEntry" None
        [ leaf "uid" "36";
          leaf "lastName" "LAZARUS GROUP";
          Xml.Element "idList" None
            [ Xml.Element "id" None
                [ leaf "idType" "Digital Currency Address - XBT";
                  leaf "idNumber" " 1A1zP1eP5QGefi2DMPTfTL5SLmv7DivfNa " ];
              Xml.Element "id" None
                [ leaf "idType" "Passport"; leaf "idNumber" "X1" ] ] ];
      Xml.Element "sdnEntry" None
        [ leaf "firstName" "A";
          Xml.Element "lastName" None [];
          Xml.Element "idList" None
            [ Xml.Element "id" None
                [ leaf "idType" "Digital Currency Address - ETH";
                  leaf "idNumber" "0x7F367CC41522CE07553E823BF3BE79A889DEBE1B" ] ] ] ].

(** The chain and the address of a list entry the loop body of the
    loader accepts: a [dict] whose [chain] and [address] members are
    [str]. *)
Definition entry_of (item : json) : option (string * string) :=
  match item with
  | JDict members =>
      match members !! "chain", members !! "address" with
      | Some (JStr c), Some (JStr a) => Some (c, a)
      | _, _ => None
      end
  | _ => None
  end.

(** The pair the loop body adds for an entry of chain [c] and address [a]. *)
Definition stored_pair (c a : string) : string * string :=
  (Str.upper c, canonicalize c a).

(** The call returned, it did not raise. *)
Definition returns {A} (r : result A) : bool :=
  match r with
  | Ok _ => true
  | Raise _ => false
  end.

(** The three fields of a result that carry the outcome. *)
Definition outcome (r : ScreenResult) : bool * Z * string :=
  (match_ r, risk_score r, reason r).

(** * Properties *)

(** ** Characters: facts checked on all 256 of them *)

Ltac each_char c := destruct c as [[] [] [] [] [] [] [] []]; vm_compute; try (intuition congruence).

Lemma char_lower_lower c : Char.lower (Char.lower c) = Char.lower c.
Proof. each_char c. Qed.

Lemma char_lower_upper c : Char.lower (Char.upper c) = Char.lower c.
Proof. each_char c. Qed.

Lemma char_space_lower c : Char.is_space (Char.lower c) = Char.is_space c.
Proof. each_char c. Qed.

Lemma char_hex_lower c : Char.is_hex (Char.lower c) = Char.is_hex c.
Proof. each_char c. Qed.

Lemma char_hex_upper c : Char.is_hex (Char.upper c) = Char.is_hex c.
Proof. each_char c. Qed.

Lemma char_hex_not_space c : Char.is_hex c = true -> Char.is_space c = false.
Proof. each_char c. Qed.

Lemma char_hex_not_newline c : Char.is_hex c = true -> Char.is_newline c = false.
Proof. each_char c. Qed.

Lemma char_newline_space c : Char.is_newline c = true -> Char.is_space c = true.
Proof. each_char c. Qed.

(** ** Strings *)

Lemma lower_lower s : Str.lower (Str.lower s) = Str.lower s.
Proof. induction s as [|c s IH]; simpl; [reflexivity|]. now rewrite char_lower_lower, IH. Qed.

Lemma lower_upper s : Str.lower (Str.upper s) = Str.lower s.
Proof. induction s as [|c s IH]; simpl; [reflexivity|]. now rewrite char_lower_upper, IH. Qed.

Lemma lower_app s t : Str.lower (s +:+ t) = Str.lower s +:+ Str.lower t.
Proof. induction s as [|c s IH]; simpl; [reflexivity|]. now rewrite IH. Qed.

Lemma lower_length s : String.length (Str.lower s) = String.length s.
Proof. induction s as [|c s IH]; simpl; [reflexivity|]. now rewrite IH. Qed.

Lemma upper_length s : String.length (Str.upper s) = String.length s.
Proof. induction s as [|c s IH]; simpl; [reflexivity|]. now rewrite IH. Qed.

Lemma all_hex_lower s : Str.all Char.is_hex (Str.lower s) = Str.all Char.is_hex s.
Proof. induction s as [|c s IH]; simpl; [reflexivity|]. now rewrite char_hex_lower, IH. Qed.

Lemma all_hex_upper s : Str.all Char.is_hex (Str.upper s) = Str.all Char.is_hex s.
Proof. induction s as [|c s IH]; simpl; [reflexivity|]. now rewrite char_hex_upper, IH. Qed.

Lemma lstrip_lower s : Str.lstrip (Str.lower s) = Str.lower (Str.lstrip s).
Proof.
  induction s as [|c s IH]; simpl; [reflexivity|].
  rewrite char_space_lower. destruct (Char.is_space c); [exact IH | reflexivity].
Qed.

Lemma rstrip_lower s : Str.rstrip (Str.lower s) = Str.lower (Str.rstrip s).
Proof.
  induction s as [|c s IH]; simpl; [reflexivity|].
  rewrite IH, char_space_lower.
  destruct (Str.rstrip s) as [|c' r]; simpl; [|reflexivity].
  destruct (Char.is_space c); reflexivity.
Qed.

Lemma strip_lower s : Str.strip (Str.lower s) = Str.lower (Str.strip s).
Proof. unfold Str.strip. now rewrite lstrip_lower, rstrip_lower. Qed.

Lemma lstrip_head s : no_space_head (Str.lstrip s) = true.
Proof.
  induction s as [|c s IH]; simpl; [reflexivity|].
  destruct (Char.is_space c) eqn:E; [exact IH | simpl; now rewrite E].
Qed.

Lemma lstrip_id s : no_space_head s = true -> Str.lstrip s = s.
Proof.
  destruct s as [|c s]; simpl; [reflexivity|].
  destruct (Char.is_space c); [discriminate | reflexivity].
Qed.

Lemma rstrip_head s : no_space_head s = true -> no_space_head (Str.rstrip s) = true.
Proof.
  destruct s as [|c s]; simpl; [reflexivity|]. intros H.
  destruct (Str.rstrip s); simpl; [|exact H].
  destruct (Char.is_space c) eqn:E; [reflexivity | simpl; now rewrite E].
Qed.

Lemma rstrip_rstrip s : Str.rstrip (Str.rstrip s) = Str.rstrip s.
Proof.
  induction s as [|c s IH]; simpl; [reflexivity|].
  destruct (Str.rstrip s) as [|c' r] eqn:E.
  - destruct (Char.is_space c) eqn:Ec; simpl; [reflexivity | now rewrite Ec].
  - change (Str.rstrip (String c (String c' r)) = String c (String c' r)).
    change (Str.rstrip (String c (String c' r)))
      with (match Str.rstrip (String c' r) with
            | EmptyString => if Char.is_space c then EmptyString else String c EmptyString
            | r' => String c r'
            end).
    now rewrite IH.
Qed.

Lemma strip_strip s : Str.strip (Str.strip s) = Str.strip s.
Proof.
  unfold Str.strip.
  rewrite (lstrip_id (Str.rstrip (Str.lstrip s))).
  - apply rstrip_rstrip.
  - apply rstrip_head, lstrip_head.
Qed.

(** The last character of a right-trimmed text is not whitespace. *)
Lemma rstrip_last s t c :
  Str.rstrip s = t +:+ String c EmptyString -> Char.is_space c = false.
Proof.
  revert t. induction s as [|a s IH]; intros t; simpl.
  - destruct t; discriminate.
  - destruct (Str.rstrip s) as [|c' r] eqn:E.
    + destruct (Char.is_space a) eqn:Ea.
      * destruct t; discriminate.
      * destruct t as [|b t]; simpl; intros H.
        -- now inversion H; subst.
        -- inversion H. destruct t; discriminate.
    + destruct t as [|b t]; simpl; intros H.
      * discriminate.
      * inversion H. eapply IH. eassumption.
Qed.

Lemma strip_last s t c :
  Str.strip s = t +:+ String c EmptyString -> Char.is_space c = false.
Proof. apply rstrip_last. Qed.

(** A text without any whitespace is its own trimmed form. *)
Lemma rstrip_no_space s :
  Str.all (fun c => negb (Char.is_space c)) s = true -> Str.rstrip s = s.
Proof.
  induction s as [|c s IH]; simpl; [reflexivity|].
  intros [Hc Hs]%andb_prop. rewrite (IH Hs).
  destruct s; [|reflexivity].
  now apply negb_true_iff in Hc as ->.
Qed.

Lemma strip_no_space s :
  Str.all (fun c => negb (Char.is_space c)) s = true -> Str.strip s = s.
Proof.
  intros H. unfold Str.strip. rewrite lstrip_id.
  - now apply rstrip_no_space.
  - destruct s; simpl in *; [reflexivity|]. now apply andb_prop in H as [-> _].
Qed.

Lemma append_empty_r s : s +:+ "" = s.
Proof. induction s as [|c s IH]; simpl; [reflexivity | now rewrite IH]. Qed.

Lemma append_assoc s t u : (s +:+ t) +:+ u = s +:+ t +:+ u.
Proof. induction s as [|c s IH]; simpl; [reflexivity | now rewrite IH]. Qed.

(** ** Patterns *)

Lemma literal_Some lit s rest : Re.literal lit s = Some rest <-> s = lit +:+ rest.
Proof.
  revert s. induction lit as [|a lit IH]; intros s; simpl.
  - split; congruence.
  - destruct s as [|b s]; [split; discriminate|].
    destruct (Ascii.eqb_spec a b) as [->|Hne].
    + rewrite IH. split; congruence.
    + split; [discriminate | congruence].
Qed.

Lemma span_all p s : Str.all p s = true -> Re.span p s = (String.length s, EmptyString).
Proof.
  induction s as [|c s IH]; simpl; [reflexivity|].
  intros [-> Hs]%andb_prop. now rewrite (IH Hs).
Qed.

(** [span] splits the text into a run of the class and a rest that does
    not begin with a character of the class. *)
Lemma span_split p s n rest :
  Re.span p s = (n, rest) ->
  exists body, s = body +:+ rest /\ String.length body = n /\ Str.all p body = true
               /\ match rest with EmptyString => True | String c _ => p c = false end.
Proof.
  revert n rest. induction s as [|c s IH]; simpl; intros n rest.
  - intros [= <- <-]. now exists EmptyString.
  - destruct (p c) eqn:Ec.
    + destruct (Re.span p s) as [m r] eqn:E. intros [= <- <-].
      destruct (IH _ _ eq_refl) as (body & -> & Hlen & Hall & Hrest).
      exists (String c body). simpl. rewrite Ec, Hall, Hlen. auto.
    + intros [= <- <-]. exists EmptyString. simpl. rewrite Ec. auto.
Qed.

Lemma span_app p body rest :
  Str.all p body = true ->
  match rest with EmptyString => True | String c _ => p c = false end ->
  Re.span p (body +:+ rest) = (String.length body, rest).
Proof.
  intros Hall Hrest. induction body as [|c body IH]; simpl in *.
  - destruct rest as [|c r]; [reflexivity|]. simpl. now rewrite Hrest.
  - apply andb_prop in Hall as [-> Hall]. now rewrite (IH Hall).
Qed.

(** [repeat_to_end] decides the pattern [[class]{lo,hi}$]: a run of
    [lo] to [hi] characters of the class, then the end of the text or its
    final newline. *)
Lemma repeat_to_end_spec p lo hi s :
  (forall c, p c = true -> Char.is_newline c = false) ->
  Re.repeat_to_end p lo hi s = true <->
  exists body tail, s = body +:+ tail /\ Str.all p body = true
    /\ (lo <= String.length body <= hi)%nat /\ Re.at_end tail = true.
Proof.
  intros Hnl. unfold Re.repeat_to_end. split.
  - destruct (Re.span p s) as [n rest] eqn:E.
    intros [[Hlo Hhi]%andb_prop Hend]%andb_prop.
    apply Nat.leb_le in Hlo, Hhi.
    destruct (span_split _ _ _ _ E) as (body & -> & <- & Hall & _).
    exists body, rest. auto.
  - intros (body & tail & -> & Hall & [Hlo Hhi] & Hend).
    rewrite span_app; [| assumption |].
    + rewrite Hend. apply Nat.leb_le in Hlo as ->, Hhi as ->. reflexivity.
    + destruct tail as [|c [|? ?]]; simpl in *; try discriminate; [exact I|].
      destruct (p c) eqn:Ec; [|reflexivity]. apply Hnl in Ec. congruence.
Qed.

(** On a trimmed text [EVM_RE] accepts exactly [0x] and forty hex
    digits: the final newline [$] allows cannot be there. *)
Lemma EVM_RE_strip a :
  Re.EVM_RE (Str.strip a) = true <->
  exists h, Str.strip a = "0x" +:+ h /\ String.length h = 40%nat
            /\ Str.all Char.is_hex h = true.
Proof.
  unfold Re.EVM_RE. split.
  - destruct (Re.literal "0x" (Str.strip a)) as [rest|] eqn:E; [|discriminate].
    apply literal_Some in E. intros H.
    apply (repeat_to_end_spec _ _ _ _ char_hex_not_newline) in H
      as (body & tail & -> & Hall & Hlen & Hend).
    destruct tail as [|c [|? ?]]; simpl in Hend; try discriminate.
    + exists body. rewrite E, append_empty_r.
      split; [reflexivity | split; [lia | assumption]].
    + exfalso. apply char_newline_space in Hend.
      assert (Char.is_space c = false); [|congruence].
      apply (strip_last a ("0x" +:+ body) c). now rewrite E, append_assoc.
  - intros (h & -> & Hlen & Hall).
    replace (Re.literal "0x" ("0x" +:+ h)) with (Some h)
      by (symmetry; now apply literal_Some).
    apply (repeat_to_end_spec _ _ _ _ char_hex_not_newline).
    exists h, EmptyString. rewrite append_empty_r.
    repeat split; try assumption; lia.
Qed.

(** ** Dispatch on the chain tag *)

Lemma btc_not_evm c : c ∈ BTC_CHAINS -> c ∉ EVM_CHAINS.
Proof.
  unfold BTC_CHAINS, EVM_CHAINS. intros H.
  apply elem_of_union in H as [H%elem_of_singleton | H%elem_of_singleton];
    subst c; apply (bool_decide_eq_false_1 _); vm_compute; reflexivity.
Qed.

Lemma canonicalize_evm chain a :
  evm_family chain -> canonicalize chain a = Str.lower (Str.strip a).
Proof. intros H. unfold canonicalize. now rewrite (bool_decide_eq_true_2 _ H). Qed.

Lemma canonicalize_bitcoin chain a :
  bitcoin chain ->
  canonicalize chain a
  = if segwit_prefixed a then Str.lower (Str.strip a) else Str.strip a.
Proof.
  intros H. unfold canonicalize, segwit_prefixed.
  rewrite (bool_decide_eq_false_2 _ (btc_not_evm _ H)).
  now rewrite (bool_decide_eq_true_2 _ H).
Qed.

Lemma canonicalize_other chain a :
  ~ evm_family chain -> ~ bitcoin chain -> canonicalize chain a = Str.strip a.
Proof.
  intros H1 H2. unfold canonicalize.
  now rewrite (bool_decide_eq_false_2 _ H1), (bool_decide_eq_false_2 _ H2).
Qed.

Lemma validate_evm chain a :
  evm_family chain -> syntactic_validate chain a = Re.EVM_RE (Str.strip a).
Proof. intros H. unfold syntactic_validate. now rewrite (bool_decide_eq_true_2 _ H). Qed.

Lemma validate_bitcoin chain a :
  bitcoin chain ->
  syntactic_validate chain a
  = Re.BTC_BECH32_RE (Str.lower (Str.strip a)) || Re.BTC_BASE58_RE (Str.strip a).
Proof.
  intros H. unfold syntactic_validate.
  rewrite (bool_decide_eq_false_2 _ (btc_not_evm _ H)).
  now rewrite (bool_decide_eq_true_2 _ H).
Qed.

Lemma validate_other chain a :
  ~ evm_family chain -> ~ bitcoin chain -> syntactic_validate chain a = true.
Proof.
  intros H1 H2. unfold syntactic_validate.
  now rewrite (bool_decide_eq_false_2 _ H1), (bool_decide_eq_false_2 _ H2).
Qed.

Lemma evm_family_ETH : evm_family "ETH".
Proof. apply (bool_decide_unpack _). vm_compute. exact I. Defined.

Lemma bitcoin_BTC : bitcoin "BTC".
Proof. apply (bool_decide_unpack _). vm_compute. exact I. Defined.

Lemma bitcoin_XBT : bitcoin "XBT".
Proof. apply (bool_decide_unpack _). vm_compute. exact I. Defined.

(** The verdict of the engine, in one equation. *)
Lemma match_screen chain address S V :
  match_ (screen_exact_match chain address S V)
  = syntactic_validate chain address
    && bool_decide ((Str.upper chain, canonicalize chain address) ∈ S).
Proof.
  unfold screen_exact_match.
  destruct (syntactic_validate chain address); simpl; [|reflexivity].
  destruct (bool_decide _); reflexivity.
Qed.

(** ** The screening engine *)

(** C1. On a syntactically valid address the engine looks the pair
    (upper-cased chain, canonical address) up in the sanctioned set: a hit
    gives match, score 100 and the authoritative-match reason, a miss gives
    no match, score 0 and the no-exact-match reason, and the list version
    is attached to both. *)
Theorem screen_valid_lookup chain address S V :
  syntactic_validate chain address = true ->
  ((Str.upper chain, canonicalize chain address) ∈ S ->
     screen_exact_match chain address S V
     = {| address := address; chain := chain; match_ := true; risk_score := 100;
          reason := "exact_match_authoritative_sanctions_address";
          list_version := Some V |})
  /\ ((Str.upper chain, canonicalize chain address) ∉ S ->
     screen_exact_match chain address S V
     = {| address := address; chain := chain; match_ := false; risk_score := 0;
          reason := "no_exact_match"; list_version := Some V |}).
Proof.
  intros Hv. unfold screen_exact_match. rewrite Hv. simpl. split; intros H.
  - now rewrite (bool_decide_eq_true_2 _ H).
  - now rewrite (bool_decide_eq_false_2 _ H).
Qed.

(** C2. On a syntactically invalid address the engine answers no match,
    score 0, reason invalid_address_syntax, with the list version attached;
    the answer is the same record for every sanctioned set. *)
Theorem screen_invalid_syntax chain address V :
  syntactic_validate chain address = false ->
  forall S : gset (string * string),
    screen_exact_match chain address S V
    = {| address := address; chain := chain; match_ := false; risk_score := 0;
         reason := "invalid_address_syntax"; list_version := Some V |}.
Proof. intros Hv S. unfold screen_exact_match. now rewrite Hv. Qed.

(** C10. In every result the score is 100 on a match and 0 otherwise, and
    the address, chain and list version are the caller's arguments as they
    were passed: the address is neither trimmed nor canonicalized. *)
Theorem screen_result_invariant c a S V :
  let r := screen_exact_match c a S V in
  risk_score r = (if match_ r then 100 else 0)%Z
  /\ address r = a
  /\ chain r = c
  /\ list_version r = Some V.
Proof.
  unfold screen_exact_match.
  destruct (syntactic_validate c a); simpl; [|auto].
  destruct (bool_decide _); simpl; auto.
Qed.

Lemma screen_valid_lookup_witness :
  syntactic_validate "ETH" "0x7F367CC41522CE07553E823BF3BE79A889DEBE1B" = true
  /\ screen_exact_match "ETH" "0x7F367CC41522CE07553E823BF3BE79A889DEBE1B"
       demo_set demo_version
     = {| address := "0x7F367CC41522CE07553E823BF3BE79A889DEBE1B"; chain := "ETH";
          match_ := true; risk_score := 100;
          reason := "exact_match_authoritative_sanctions_address";
          list_version := Some demo_version |}.
Proof.
  split; [vm_compute; reflexivity|].
  apply (screen_valid_lookup "ETH" "0x7F367CC41522CE07553E823BF3BE79A889DEBE1B"
           demo_set demo_version); [vm_compute; reflexivity|].
  apply (bool_decide_unpack _). vm_compute. exact I.
Defined.

Lemma screen_invalid_syntax_witness :
  syntactic_validate "ETH" "invalid" = false
  /\ screen_exact_match "ETH" "invalid" demo_set demo_version
     = {| address := "invalid"; chain := "ETH"; match_ := false; risk_score := 0;
          reason := "invalid_address_syntax"; list_version := Some demo_version |}.
Proof.
  split; [vm_compute; reflexivity|].
  apply (screen_invalid_syntax "ETH" "invalid" demo_version).
  vm_compute. reflexivity.
Defined.

(** ** The validator *)

(** C3, as the specification states it, fails: forty hexadecimal
    characters without [0x] have the specification's form and are rejected
    by the validator. *)
Lemma evm_bare_hex_rejected :
  spec_evm_form (Str.strip "7f367cc41522ce07553e823bf3be79a889debe1b") = true
  /\ syntactic_validate "ETH" "7f367cc41522ce07553e823bf3be79a889debe1b" = false.
Proof. split; vm_compute; reflexivity. Qed.

(** C3, amended. For every chain tag of the EVM family the validator
    accepts an address exactly when its trimmed form is the lower-case
    prefix [0x] followed by exactly forty hexadecimal characters of either
    case: the prefix is required. *)
Theorem evm_validate_iff chain a :
  evm_family chain ->
  syntactic_validate chain a = true
  <-> exists h, Str.strip a = "0x" +:+ h
                /\ String.length h = 40%nat /\ Str.all Char.is_hex h = true.
Proof. intros H. rewrite (validate_evm _ _ H). apply EVM_RE_strip. Qed.

Lemma evm_validate_iff_witness :
  evm_family "ETH"
  /\ (syntactic_validate "ETH" " 0x7F367CC41522CE07553E823BF3BE79A889DEBE1B " = true
      <-> exists h, Str.strip " 0x7F367CC41522CE07553E823BF3BE79A889DEBE1B " = "0x" +:+ h
                    /\ String.length h = 40%nat /\ Str.all Char.is_hex h = true).
Proof.
  split; [exact evm_family_ETH|].
  apply (evm_validate_iff "ETH" " 0x7F367CC41522CE07553E823BF3BE79A889DEBE1B ").
  exact evm_family_ETH.
Defined.

(** The upper-case prefix [0X] is not the pattern's. *)
Example evm_upper_prefix_rejected :
  syntactic_validate "ETH" "0X7F367CC41522CE07553E823BF3BE79A889DEBE1B" = false.
Proof. vm_compute. reflexivity. Qed.

(** C9, as the specification states it, fails: a chain tag with a space
    before it is, once upper-cased, in neither family set, yet the
    dispatch also trims it; the tag is treated as Ethereum, the address is
    rejected and the canonical form is folded to lower case. *)
Lemma padded_chain_tag_is_dispatched :
  bool_decide (Str.upper " eth" ∈ EVM_CHAINS) = false
  /\ bool_decide (Str.upper " eth" ∈ BTC_CHAINS) = false
  /\ syntactic_validate " eth" "Foo" = false
  /\ canonicalize " eth" "Foo" = "foo"
  /\ Str.strip "Foo" = "Foo".
Proof. repeat split; vm_compute; reflexivity. Qed.

(** C9, amended. For every chain tag that, upper-cased and trimmed of
    surrounding whitespace, is neither in the EVM family nor a Bitcoin
    ticker, and every address, the validator answers true and the
    canonicalizer returns the trimmed address unchanged. *)
Theorem unknown_chain_pass_through chain a :
  Str.strip (Str.upper chain) ∉ EVM_CHAINS ->
  Str.strip (Str.upper chain) ∉ BTC_CHAINS ->
  syntactic_validate chain a = true /\ canonicalize chain a = Str.strip a.
Proof.
  intros H1 H2. split.
  - now apply validate_other.
  - now apply canonicalize_other.
Qed.

Lemma unknown_chain_pass_through_witness :
(Str.strip (Str.upper "trx") ∉ EVM_CHAINS)
  /\ (Str.strip (Str.upper "trx") ∉ BTC_CHAINS)
  /\ syntactic_validate "trx" " TLa2f6VPqDgRE67v1736s7bJ8Ray5wYjU7 " = true
  /\ canonicalize "trx" " TLa2f6VPqDgRE67v1736s7bJ8Ray5wYjU7 "
     = Str.strip " TLa2f6VPqDgRE67v1736s7bJ8Ray5wYjU7 ".
Proof.
  assert (H1 : Str.strip (Str.upper "trx") ∉ EVM_CHAINS)
    by (apply (bool_decide_eq_false_1 _); vm_compute; reflexivity).
  assert (H2 : Str.strip (Str.upper "trx") ∉ BTC_CHAINS)
    by (apply (bool_decide_eq_false_1 _); vm_compute; reflexivity).
  split; [exact H1 | split; [exact H2|]].
  exact (unknown_chain_pass_through "trx" " TLa2f6VPqDgRE67v1736s7bJ8Ray5wYjU7 " H1 H2).
Defined.

(** ** The canonicalizer *)

Lemma segwit_prefixed_lower a : segwit_prefixed (Str.lower a) = segwit_prefixed a.
Proof. unfold segwit_prefixed. now rewrite strip_lower, lower_lower. Qed.

Lemma segwit_prefixed_strip a : segwit_prefixed (Str.strip a) = segwit_prefixed a.
Proof. unfold segwit_prefixed. now rewrite strip_strip. Qed.

(** C8. The canonicalizer is idempotent, on every chain tag and every
    address. *)
Theorem canonicalize_idempotent chain a :
  canonicalize chain (canonicalize chain a) = canonicalize chain a.
Proof.
  destruct (decide (evm_family chain)) as [He|He].
  - rewrite !(canonicalize_evm _ _ He).
    now rewrite strip_lower, strip_strip, lower_lower.
  - destruct (decide (bitcoin chain)) as [Hb|Hb].
    + rewrite (canonicalize_bitcoin _ a Hb).
      destruct (segwit_prefixed a) eqn:E; rewrite (canonicalize_bitcoin _ _ Hb).
      * rewrite segwit_prefixed_lower, segwit_prefixed_strip, E.
        now rewrite strip_lower, strip_strip, lower_lower.
      * now rewrite segwit_prefixed_strip, E, strip_strip.
    + rewrite !(canonicalize_other _ _ He Hb). apply strip_strip.
Qed.

(** ** Case of the address *)

Lemma all_weaken (p q : ascii -> bool) s :
  (forall c, p c = true -> q c = true) -> Str.all p s = true -> Str.all q s = true.
Proof.
  intros Hpq. induction s as [|c s IH]; simpl; [reflexivity|].
  intros [Hc Hs]%andb_prop. now rewrite (Hpq _ Hc), (IH Hs).
Qed.

(** [0x] and hex digits hold no whitespace: such an address is its own
    trimmed form. *)
Lemma strip_0x_hex h :
  Str.all Char.is_hex h = true -> Str.strip ("0x" +:+ h) = "0x" +:+ h.
Proof.
  intros H. apply strip_no_space. simpl.
  apply (all_weaken Char.is_hex); [|exact H].
  intros c Hc. now rewrite (char_hex_not_space _ Hc).
Qed.

Lemma validate_0x_hex40 chain h :
  evm_family chain -> hex40 h = true -> syntactic_validate chain ("0x" +:+ h) = true.
Proof.
  intros He [Hlen Hall]%andb_prop. apply Nat.eqb_eq in Hlen.
  rewrite (validate_evm _ _ He). apply EVM_RE_strip.
  exists h. now rewrite strip_0x_hex.
Qed.

Lemma hex40_lower h : hex40 (Str.lower h) = hex40 h.
Proof. unfold hex40. now rewrite lower_length, all_hex_lower. Qed.

Lemma hex40_upper h : hex40 (Str.upper h) = hex40 h.
Proof. unfold hex40. now rewrite upper_length, all_hex_upper. Qed.

(** C7. For every address of forty hexadecimal digits after [0x], every
    sanctioned set and every list version, the verdict on chain ETH is the
    same for the upper-case and the lower-case spelling of the digits. *)
Theorem evm_case_invariance h S V :
  hex40 h = true ->
  match_ (screen_exact_match "ETH" ("0x" +:+ Str.upper h) S V)
  = match_ (screen_exact_match "ETH" ("0x" +:+ Str.lower h) S V).
Proof.
  intros H. rewrite !match_screen.
  rewrite !(validate_0x_hex40 _ _ evm_family_ETH)
    by (now rewrite ?hex40_lower, ?hex40_upper).
  rewrite !(canonicalize_evm _ _ evm_family_ETH).
  apply andb_prop in H as [_ Hall].
  rewrite !strip_0x_hex by (now rewrite ?all_hex_lower, ?all_hex_upper).
  simpl. now rewrite lower_upper, lower_lower.
Qed.

Lemma evm_case_invariance_witness :
  hex40 "7f367cc41522ce07553e823BF3BE79A889DEBE1B" = true
  /\ match_ (screen_exact_match "ETH"
              ("0x" +:+ Str.upper "7f367cc41522ce07553e823BF3BE79A889DEBE1B")
              demo_set demo_version)
     = match_ (screen_exact_match "ETH"
              ("0x" +:+ Str.lower "7f367cc41522ce07553e823BF3BE79A889DEBE1B")
              demo_set demo_version).
Proof.
  split; [vm_compute; reflexivity|].
  apply (evm_case_invariance "7f367cc41522ce07553e823BF3BE79A889DEBE1B"
           demo_set demo_version).
  vm_compute. reflexivity.
Defined.

(** The verdict there is a match: the invariance is not one of two
    rejections. *)
Example evm_upper_case_hit :
  match_ (screen_exact_match "ETH"
            ("0x" +:+ Str.upper "7f367cc41522ce07553e823BF3BE79A889DEBE1B")
            demo_set demo_version) = true.
Proof. vm_compute. reflexivity. Qed.

(** ** The Bitcoin ticker alias *)

(** C5, as the specification states it, fails: against a set that holds
    a Bitcoin address under BTC, the same address is a hit under BTC and a
    miss under XBT. *)
Lemma xbt_looked_up_under_its_own_tag :
  match_ (screen_exact_match "BTC" "bc1qxy2kgdygjrsqtzq2n0yrf2493p83kkfjhx0wlh"
            demo_set demo_version) = true
  /\ match_ (screen_exact_match "XBT" "bc1qxy2kgdygjrsqtzq2n0yrf2493p83kkfjhx0wlh"
            demo_set demo_version) = false.
Proof. split; vm_compute; reflexivity. Qed.

Lemma xbt_btc_same_rules a :
  syntactic_validate "XBT" a = syntactic_validate "BTC" a
  /\ canonicalize "XBT" a = canonicalize "BTC" a.
Proof.
  split.
  - now rewrite (validate_bitcoin _ _ bitcoin_XBT), (validate_bitcoin _ _ bitcoin_BTC).
  - now rewrite (canonicalize_bitcoin _ _ bitcoin_XBT), (canonicalize_bitcoin _ _ bitcoin_BTC).
Qed.

(** C5, amended. XBT and BTC are validated and canonicalized by the same
    rule, and each is looked up under its own tag: the two verdicts agree
    for every sanctioned set that holds the canonical address under both
    tags or under neither. *)
Theorem xbt_btc_same_verdict a S V :
  (("XBT", canonicalize "XBT" a) ∈ S <-> ("BTC", canonicalize "BTC" a) ∈ S) ->
  syntactic_validate "XBT" a = syntactic_validate "BTC" a
  /\ canonicalize "XBT" a = canonicalize "BTC" a
  /\ match_ (screen_exact_match "XBT" a S V) = match_ (screen_exact_match "BTC" a S V).
Proof.
  intros H. destruct (xbt_btc_same_rules a) as [Hv Hc].
  repeat split; try assumption.
  rewrite !match_screen, Hv. f_equal.
  change (Str.upper "XBT") with "XBT". change (Str.upper "BTC") with "BTC".
  apply bool_decide_ext. exact H.
Qed.

Lemma xbt_btc_same_verdict_witness :
  let a := "BC1QXY2KGDYGJRSQTZQ2N0YRF2493P83KKFJHX0WLH" in
  let S : gset (string * string) :=
    {[ ("BTC", "bc1qxy2kgdygjrsqtzq2n0yrf2493p83kkfjhx0wlh");
       ("XBT", "bc1qxy2kgdygjrsqtzq2n0yrf2493p83kkfjhx0wlh") ]} in
  (("XBT", canonicalize "XBT" a) ∈ S <-> ("BTC", canonicalize "BTC" a) ∈ S)
  /\ match_ (screen_exact_match "XBT" a S demo_version)
     = match_ (screen_exact_match "BTC" a S demo_version).
Proof.
  intros a S.
  assert (H : ("XBT", canonicalize "XBT" a) ∈ S <-> ("BTC", canonicalize "BTC" a) ∈ S)
    by (split; intros _; apply (bool_decide_unpack _); vm_compute; exact I).
  split; [exact H|].
  exact (proj2 (proj2 (xbt_btc_same_verdict a S demo_version H))).
Defined.

(** ** Legacy Bitcoin addresses *)

Lemma lstrip_length s : (String.length (Str.lstrip s) <= String.length s)%nat.
Proof.
  induction s as [|c s IH]; simpl; [lia|].
  destruct (Char.is_space c); simpl; lia.
Qed.

Lemma rstrip_length s : (String.length (Str.rstrip s) <= String.length s)%nat.
Proof.
  induction s as [|c s IH]; simpl; [lia|].
  destruct (Str.rstrip s); [destruct (Char.is_space c)|]; simpl in *; lia.
Qed.

Lemma lstrip_same_length s :
  String.length (Str.lstrip s) = String.length s -> Str.lstrip s = s.
Proof.
  destruct s as [|c s]; simpl; [reflexivity|].
  destruct (Char.is_space c); [|reflexivity].
  pose proof (lstrip_length s). lia.
Qed.

Lemma rstrip_same_length s :
  String.length (Str.rstrip s) = String.length s -> Str.rstrip s = s.
Proof.
  induction s as [|c s IH]; simpl; [reflexivity|].
  pose proof (rstrip_length s) as Hle.
  destruct (Str.rstrip s) as [|c' r] eqn:E.
  - destruct (Char.is_space c); simpl; [discriminate|].
    destruct s; [reflexivity | simpl; discriminate].
  - intros H. f_equal. apply IH. simpl in *. lia.
Qed.

(** Trimming only removes characters: a trimmed form as long as the text
    is the text. *)
Lemma strip_same_length s :
  String.length (Str.strip s) = String.length s -> Str.strip s = s.
Proof.
  unfold Str.strip. intros H.
  pose proof (rstrip_length (Str.lstrip s)). pose proof (lstrip_length s).
  rewrite rstrip_same_length by lia. apply lstrip_same_length. lia.
Qed.

(** A case variant of a trimmed text is trimmed. *)
Lemma case_variant_trimmed a b :
  Str.lower a = Str.lower b -> Str.strip b = b -> Str.strip a = a.
Proof.
  intros Hab Hb. apply strip_same_length.
  rewrite <- (lower_length (Str.strip a)), <- strip_lower, Hab, strip_lower, Hb.
  now rewrite <- Hab, lower_length.
Qed.

Lemma case_variant_prefixed a b :
  Str.lower a = Str.lower b -> Str.strip b = b -> segwit_prefixed a = segwit_prefixed b.
Proof.
  intros Hab Hb. unfold segwit_prefixed.
  now rewrite (case_variant_trimmed _ _ Hab Hb), Hb, Hab.
Qed.

(** C6. On a Bitcoin chain tag the canonicalizer leaves a legacy address
    (one whose trimmed form does not begin, whatever the case, with bc1,
    tb1 or bcrt1) as it is once trimmed.  When a sanctioned set stores
    exactly one legacy form [b] under the tag, [b] itself is a hit as soon
    as it is valid, and no other spelling of [b] that differs from it in
    the case of some letters is a hit. *)
Theorem legacy_base58_exact_case chain b S V :
  bitcoin chain ->
  segwit_prefixed b = false ->
  Str.strip b = b ->
  (Str.upper chain, b) ∈ S ->
  (forall x, (Str.upper chain, x) ∈ S -> segwit_prefixed x = false -> x = b) ->
  (forall a, segwit_prefixed a = false -> canonicalize chain a = Str.strip a)
  /\ canonicalize chain b = b
  /\ match_ (screen_exact_match chain b S V) = syntactic_validate chain b
  /\ (forall a, Str.lower a = Str.lower b -> a <> b ->
        match_ (screen_exact_match chain a S V) = false).
Proof.
  intros Hbtc Hleg Htrim Hin Honly.
  assert (Hcanon : forall a, segwit_prefixed a = false ->
                             canonicalize chain a = Str.strip a).
  { intros a Ha. now rewrite (canonicalize_bitcoin _ _ Hbtc), Ha. }
  assert (Hb : canonicalize chain b = b) by (now rewrite (Hcanon _ Hleg)).
  repeat split; try assumption.
  - rewrite match_screen, Hb, (bool_decide_eq_true_2 _ Hin). apply andb_true_r.
  - intros a Hab Hne. rewrite match_screen.
    assert (Ha : segwit_prefixed a = false)
      by (now rewrite (case_variant_prefixed _ _ Hab Htrim)).
    rewrite (Hcanon _ Ha), (case_variant_trimmed _ _ Hab Htrim).
    rewrite bool_decide_eq_false_2; [apply andb_false_r|].
    intros Hhit. apply Hne. now apply Honly.
Qed.

Lemma legacy_base58_exact_case_witness :
  let b := "1A1zP1eP5QGefi2DMPTfTL5SLmv7DivfNa" in
  let S : gset (string * string) := {[ ("BTC", b) ]} ∪ demo_set in
  canonicalize "BTC" b = b
  /\ match_ (screen_exact_match "BTC" b S demo_version) = true
  /\ match_ (screen_exact_match "BTC" "1a1zp1ep5qgefi2dmptftl5slmv7divfna" S demo_version)
     = false.
Proof.
  intros b S.
  assert (Honly : forall x, (Str.upper "BTC", x) ∈ S -> segwit_prefixed x = false -> x = b).
  { intros x Hx Hleg. subst S. unfold demo_set in Hx.
    apply elem_of_union in Hx as [Hx | Hx].
    - apply elem_of_singleton in Hx. now inversion Hx.
    - apply elem_of_union in Hx as [Hx | Hx]; apply elem_of_singleton in Hx.
      + inversion Hx.
      + inversion Hx; subst x. vm_compute in Hleg. discriminate. }
  destruct (legacy_base58_exact_case "BTC" b S demo_version bitcoin_BTC)
    as (_ & Hb & Hhit & Hcase); try assumption.
  - vm_compute. reflexivity.
  - vm_compute. reflexivity.
  - apply (bool_decide_unpack _). vm_compute. exact I.
  - split; [exact Hb | split].
    + rewrite Hhit. vm_compute. reflexivity.
    + apply Hcase; [vm_compute; reflexivity | discriminate].
Defined.

(** ** The loader *)

(** C4, as the specification states it, fails: a document with a
    metadata block and no [addresses] member loads, and gives the empty
    set. *)
Lemma load_without_addresses_succeeds :
  let members : gmap string json :=
    {[ "metadata" := JDict {[ "source" := JStr "OFAC_SDN" ]} ]} in
  members !! "addresses" = None
  /\ load_sanctioned_addresses Iso.fromisoformat_seconds (JDict members)
     = Ok (∅, {| source := JStr "OFAC_SDN";
                 retrieved_at_utc := {| year := 2000; month := 1; day := 1;
                                        hour := 0; minute := 0; second := 0;
                                        microsecond := 0 |};
                 sha256 := JStr ""; uri := JStr "" |}).
Proof. split; vm_compute; reflexivity. Qed.

(** C4, amended. A document without the [addresses] member loads whenever
    its metadata block does: the loader returns the empty sanctioned set
    with the list version of that block. *)
Theorem load_without_addresses fromisoformat (members : gmap string json) lv :
  members !! "addresses" = None ->
  load_list_version fromisoformat (JDict members) = Ok lv ->
  load_sanctioned_addresses fromisoformat (JDict members) = Ok (∅, lv).
Proof.
  intros Hnone Hlv. unfold load_sanctioned_addresses.
  rewrite Hlv. simpl. now rewrite Hnone.
Qed.

Lemma load_without_addresses_witness :
  let members : gmap string json :=
    {[ "metadata" := JDict {[ "source" := JStr "OFAC_SDN" ]} ]} in
  let lv := {| source := JStr "OFAC_SDN";
               retrieved_at_utc := {| year := 2000; month := 1; day := 1;
                                      hour := 0; minute := 0; second := 0;
                                      microsecond := 0 |};
               sha256 := JStr ""; uri := JStr "" |} in
  members !! "addresses" = None
  /\ load_list_version Iso.fromisoformat_seconds (JDict members) = Ok lv
  /\ load_sanctioned_addresses Iso.fromisoformat_seconds (JDict members) = Ok (∅, lv).
Proof.
  intros members lv.
  assert (H1 : members !! "addresses" = None) by (vm_compute; reflexivity).
  assert (H2 : load_list_version Iso.fromisoformat_seconds (JDict members) = Ok lv)
    by (vm_compute; reflexivity).
  split; [exact H1 | split; [exact H2|]].
  exact (load_without_addresses Iso.fromisoformat_seconds members lv H1 H2).
Defined.

(** The failures the loader does have: an entry without [chain] or
    without [address] stops the load with a [KeyError]. *)
Lemma load_entry_without_chain (members : gmap string json) S :
  members !! "chain" = None -> load_entry (JDict members) S = Raise KeyError.
Proof. intros H. unfold load_entry. simpl. now rewrite H. Qed.

Lemma load_entry_without_address (members : gmap string json) chain S :
  members !! "chain" = Some chain -> members !! "address" = None ->
  load_entry (JDict members) S = Raise KeyError.
Proof. intros H1 H2. unfold load_entry. simpl. rewrite H1. simpl. now rewrite H2. Qed.

Example load_stops_at_malformed_entry :
  load_sanctioned_addresses Iso.fromisoformat_seconds
    (JDict {[ "addresses" := JList [ JDict {[ "address" := JStr "0x00" ]} ] ]})
  = Raise KeyError.
Proof. vm_compute. reflexivity. Qed.

(** The loader stores the canonical form under the upper-cased tag. *)
Example load_entries_canonical :
  match load_sanctioned_addresses Iso.fromisoformat_seconds
          (JDict {[ "addresses" :=
             JList [ JDict {[ "chain" := JStr "eth";
                              "address" := JStr " 0x7F367CC41522CE07553E823BF3BE79A889DEBE1B" ]} ] ]})
  with
  | Ok (stored, _) =>
      bool_decide (stored = {[ ("ETH", "0x7f367cc41522ce07553e823bf3be79a889debe1b") ]})
  | Raise _ => false
  end = true.
Proof. vm_compute. reflexivity. Qed.

(** ** The test cases of [main]

    Each address of [main]'s list, screened against [demo_set], with the
    outcome its comment announces. *)

Example main_case_1 :
  verdict "ETH" "0x7f367cc41522ce07553e823bf3be79a889debe1b"
  = (true, 100%Z, "exact_match_authoritative_sanctions_address").
Proof. vm_compute. reflexivity. Qed.

Example main_case_2 :
  verdict "ETH" "0x7F367CC41522CE07553E823BF3BE79A889DEBE1B"
  = (true, 100%Z, "exact_match_authoritative_sanctions_address").
Proof. vm_compute. reflexivity. Qed.

Example main_case_3 :
  verdict "ETH" "0x0000000000000000000000000000000000000000"
  = (false, 0%Z, "no_exact_match").
Proof. vm_compute. reflexivity. Qed.

Example main_case_4 :
  verdict "BTC" "bc1qxy2kgdygjrsqtzq2n0yrf2493p83kkfjhx0wlh"
  = (true, 100%Z, "exact_match_authoritative_sanctions_address").
Proof. vm_compute. reflexivity. Qed.

Example main_case_5 :
  verdict "BTC" "BC1QXY2KGDYGJRSQTZQ2N0YRF2493P83KKFJHX0WLH"
  = (true, 100%Z, "exact_match_authoritative_sanctions_address").
Proof. vm_compute. reflexivity. Qed.

Example main_case_6 :
  verdict "ETH" "invalid" = (false, 0%Z, "invalid_address_syntax").
Proof. vm_compute. reflexivity. Qed.

(** * Further properties of the engine and of the loader *)

(** ** What the loader stores *)

Section LoaderFacts.

Variable fromisoformat : string -> option datetime.

Lemma load_entry_accepts item c a S :
  entry_of item = Some (c, a) ->
  load_entry item S = Ok (S ∪ {[ stored_pair c a ]}).
Proof.
  destruct item as [| | | |?|members]; try discriminate. unfold entry_of, load_entry.
  simpl. destruct (members !! "chain") as [[| | |c'| |]|]; try discriminate.
  destruct (members !! "address") as [[| | |a'| |]|]; try discriminate.
  now intros [= -> ->].
Qed.

Lemma load_entry_refuses item S :
  entry_of item = None -> exists e, load_entry item S = Raise e.
Proof.
  destruct item as [| | | |?|members]; unfold entry_of, load_entry; simpl; eauto.
  destruct (members !! "chain") as [[| | |c'| |]|]; simpl;
    destruct (members !! "address") as [[| | |a'| |]|]; simpl; eauto; discriminate.
Qed.

(** The loop adds to the set it starts from one pair per entry, and
    returns only when every entry was accepted. *)
Lemma load_entries_Ok items acc S :
  load_entries items acc = Ok S ->
  Forall (fun item => is_Some (entry_of item)) items
  /\ forall p, p ∈ S <->
       p ∈ acc \/ exists item c a, item ∈ items /\ entry_of item = Some (c, a)
                                   /\ p = stored_pair c a.
Proof.
  revert acc. induction items as [|item items IH]; intros acc; simpl.
  - intros [= <-]. split; [constructor|]. intros p. split; [auto|].
    intros [H | (item & c & a & Hin & _)]; [exact H|]. now apply elem_of_nil in Hin.
  - destruct (entry_of item) as [[c a]|] eqn:E.
    + rewrite (load_entry_accepts _ _ _ _ E). simpl. intros H.
      destruct (IH _ H) as [Hall Hmem]. split.
      * constructor; [rewrite E; eauto | exact Hall].
      * intros p. rewrite Hmem, elem_of_union, elem_of_singleton. split.
        -- intros [[H1 | H1] | (i & c' & a' & Hi & Hi' & Hp)].
           ++ now left.
           ++ right. exists item, c, a. split; [constructor | auto].
           ++ right. exists i, c', a'. split; [now constructor | auto].
        -- intros [H1 | (i & c' & a' & Hi & Hi' & Hp)]; [now left; left|].
           apply elem_of_cons in Hi as [-> | Hi].
           ++ rewrite E in Hi'. injection Hi' as <- <-. now left; right.
           ++ right. exists i, c', a'. auto.
    + destruct (load_entry_refuses item acc E) as [e ->]. discriminate.
Qed.

Lemma load_entries_accepts items acc :
  Forall (fun item => is_Some (entry_of item)) items ->
  exists S, load_entries items acc = Ok S.
Proof.
  intros H. revert acc. induction H as [|item items [[c a] Hi] _ IH]; intros acc; simpl.
  - eauto.
  - rewrite (load_entry_accepts _ _ _ _ Hi). simpl. apply IH.
Qed.

(** The loop stops at the first entry it refuses, with that entry's
    exception. *)
Lemma load_entries_stops pre bad post acc e :
  Forall (fun item => is_Some (entry_of item)) pre ->
  (forall S, load_entry bad S = Raise e) ->
  load_entries (pre ++ bad :: post) acc = Raise e.
Proof.
  intros H Hbad. revert acc. induction H as [|item items [[c a] Hi] _ IH]; intros acc; simpl.
  - now rewrite Hbad.
  - rewrite (load_entry_accepts _ _ _ _ Hi). simpl. apply IH.
Qed.

(** A load that succeeds went through [load_entries] on the items of
    the [addresses] member. *)
Lemma load_Ok_inv data S lv :
  load_sanctioned_addresses fromisoformat data = Ok (S, lv) ->
  exists items,
    load_list_version fromisoformat data = Ok lv
    /\ (Py.get data "addresses" (JList []) ≫= Py.iter) = Ok items
    /\ load_entries items ∅ = Ok S.
Proof.
  unfold load_sanctioned_addresses.
  destruct (load_list_version fromisoformat data) as [lv'|]; [|discriminate]. simpl.
  destruct (Py.get data "addresses" (JList [])) as [v|]; [|discriminate]. simpl.
  destruct (Py.iter v) as [items|]; [|discriminate]. simpl.
  destruct (load_entries items ∅) as [S'|] eqn:E; [|discriminate]. simpl.
  intros [= <- <-]. eauto.
Qed.

End LoaderFacts.

Lemma load_of_list fromisoformat (members : gmap string json) items :
  members !! "addresses" = Some (JList items) ->
  load_sanctioned_addresses fromisoformat (JDict members)
  = (load_list_version fromisoformat (JDict members) ≫= fun lv =>
     load_entries items ∅ ≫= fun S => Ok (S, lv)).
Proof.
  intros H. unfold load_sanctioned_addresses.
  destruct (load_list_version _ _); simpl; [|reflexivity]. now rewrite H.
Qed.

(** X1. All or nothing: with a metadata block that loads and an
    [addresses] list, the loader returns a set exactly when every item of
    the list is a dict whose [chain] and [address] are strings; otherwise
    it raises, and no part of the list is returned. *)
Theorem load_all_or_nothing fromisoformat (members : gmap string json) items lv :
  members !! "addresses" = Some (JList items) ->
  load_list_version fromisoformat (JDict members) = Ok lv ->
  (exists S, load_sanctioned_addresses fromisoformat (JDict members) = Ok (S, lv))
  <-> Forall (fun item => is_Some (entry_of item)) items.
Proof.
  intros Ha Hlv. rewrite (load_of_list _ _ _ Ha), Hlv. simpl. split.
  - intros [S H]. destruct (load_entries items ∅) as [S'|] eqn:E; [|discriminate].
    now apply load_entries_Ok in E as [E _].
  - intros H. destruct (load_entries_accepts items ∅ H) as [S ->]. simpl. eauto.
Qed.

Lemma load_all_or_nothing_witness :
  let good := JDict {[ "chain" := JStr "eth"; "address" := JStr "0xAB" ]} in
  let members : gmap string json := {[ "addresses" := JList [good] ]} in
  exists lv,
    load_list_version Iso.fromisoformat_seconds (JDict members) = Ok lv
    /\ ((exists S, load_sanctioned_addresses Iso.fromisoformat_seconds (JDict members)
                   = Ok (S, lv))
        <-> Forall (fun item => is_Some (entry_of item)) [good]).
Proof.
  intros good members.
  assert (Hok : returns (load_list_version Iso.fromisoformat_seconds (JDict members)) = true)
    by (vm_compute; reflexivity).
  destruct (load_list_version Iso.fromisoformat_seconds (JDict members)) as [lv|e] eqn:E;
    [|discriminate Hok].
  exists lv. split; [reflexivity|].
  apply (load_all_or_nothing Iso.fromisoformat_seconds members [good] lv);
    [vm_compute; reflexivity | exact E].
Defined.

Lemma loaded_set_elem fromisoformat (members : gmap string json) items S lv :
  members !! "addresses" = Some (JList items) ->
  load_sanctioned_addresses fromisoformat (JDict members) = Ok (S, lv) ->
  forall k v,
    (k, v) ∈ S
    <-> exists item c a, item ∈ items /\ entry_of item = Some (c, a)
                         /\ k = Str.upper c /\ v = canonicalize c a.
Proof.
  intros Ha H k v. apply load_Ok_inv in H as (items' & _ & Hit & Hload).
  simpl in Hit. rewrite Ha in Hit. simpl in Hit. injection Hit as <-.
  apply load_entries_Ok in Hload as [_ Hmem]. rewrite Hmem. split.
  - intros [H | (item & c & a & Hin & He & Hp)]; [now apply elem_of_empty in H|].
    exists item, c, a. unfold stored_pair in Hp. injection Hp as -> ->. auto.
  - intros (item & c & a & Hin & He & -> & ->). right. exists item, c, a. auto.
Qed.

(** X2. The loaded set holds exactly the pairs of the list: a pair is in
    it if and only if some entry of chain [c] and address [a] gives it as
    (upper-cased [c], canonical form of [a] under [c]). *)
Theorem loaded_set_membership fromisoformat (members : gmap string json) items S lv :
  members !! "addresses" = Some (JList items) ->
  load_sanctioned_addresses fromisoformat (JDict members) = Ok (S, lv) ->
  forall k v,
    (k, v) ∈ S
    <-> exists item c a, item ∈ items /\ entry_of item = Some (c, a)
                         /\ k = Str.upper c /\ v = canonicalize c a.
Proof. apply loaded_set_elem. Qed.

Lemma loaded_set_membership_witness :
  let entry := JDict {[ "chain" := JStr "eth"; "address" := JStr " 0xAB" ]} in
  let members : gmap string json := {[ "addresses" := JList [entry] ]} in
  exists S lv,
    load_sanctioned_addresses Iso.fromisoformat_seconds (JDict members) = Ok (S, lv)
    /\ (("ETH", "0xab") ∈ S
        <-> exists item c a, item ∈ [entry] /\ entry_of item = Some (c, a)
                             /\ "ETH" = Str.upper c /\ "0xab" = canonicalize c a).
Proof.
  intros entry members.
  assert (Hok : returns (load_sanctioned_addresses Iso.fromisoformat_seconds
                            (JDict members)) = true)
    by (vm_compute; reflexivity).
  destruct (load_sanctioned_addresses Iso.fromisoformat_seconds (JDict members))
    as [[S lv]|e] eqn:E; [|discriminate Hok].
  exists S, lv. split; [reflexivity|].
  apply (loaded_set_membership Iso.fromisoformat_seconds members [entry] S lv);
    [vm_compute; reflexivity | exact E].
Defined.

(** X3. Loading and screening agree: an address of the list, and every
    spelling with the same canonical form, is a hit when it is screened
    under the chain tag of its entry against the loaded set, provided the
    validator accepts the spelling. *)
Theorem listed_address_is_hit
    fromisoformat (members : gmap string json) items S lv item c a a' V :
  members !! "addresses" = Some (JList items) ->
  load_sanctioned_addresses fromisoformat (JDict members) = Ok (S, lv) ->
  item ∈ items ->
  entry_of item = Some (c, a) ->
  canonicalize c a' = canonicalize c a ->
  syntactic_validate c a' = true ->
  match_ (screen_exact_match c a' S V) = true.
Proof.
  intros Ha Hload Hin He Hc Hv. rewrite match_screen, Hv, Hc. simpl.
  apply bool_decide_eq_true_2.
  apply (loaded_set_elem _ _ _ _ _ Ha Hload). exists item, c, a. auto.
Qed.

Lemma listed_address_is_hit_witness :
  let entry := JDict {[ "chain" := JStr "ETH";
                        "address" := JStr "0x7F367CC41522ce07553e823bf3be79a889debe1b" ]} in
  let members : gmap string json := {[ "addresses" := JList [entry] ]} in
  exists S lv,
    load_sanctioned_addresses Iso.fromisoformat_seconds (JDict members) = Ok (S, lv)
    /\ match_ (screen_exact_match "ETH" " 0x7f367cc41522ce07553e823bf3be79a889DEBE1B "
                 S lv) = true.
Proof.
  intros entry members.
  assert (Hok : returns (load_sanctioned_addresses Iso.fromisoformat_seconds
                            (JDict members)) = true)
    by (vm_compute; reflexivity).
  destruct (load_sanctioned_addresses Iso.fromisoformat_seconds (JDict members))
    as [[S lv]|e] eqn:E; [|discriminate Hok].
  exists S, lv. split; [reflexivity|].
  apply (listed_address_is_hit Iso.fromisoformat_seconds members [entry] S lv entry
           "ETH" "0x7F367CC41522ce07553e823bf3be79a889debe1b").
  - vm_compute. reflexivity.
  - exact E.
  - constructor.
  - vm_compute. reflexivity.
  - vm_compute. reflexivity.
  - vm_compute. reflexivity.
Defined.

Lemma char_upper_upper c : Char.upper (Char.upper c) = Char.upper c.
Proof. each_char c. Qed.

Lemma upper_upper s : Str.upper (Str.upper s) = Str.upper s.
Proof. induction s as [|c s IH]; simpl; [reflexivity|]. now rewrite char_upper_upper, IH. Qed.

Lemma canonicalize_fixed chain a :
  canonicalize chain (canonicalize chain a) = canonicalize chain a.
Proof.
  destruct (decide (evm_family chain)) as [He|He].
  - rewrite !(canonicalize_evm _ _ He).
    now rewrite strip_lower, strip_strip, lower_lower.
  - destruct (decide (bitcoin chain)) as [Hb|Hb].
    + rewrite (canonicalize_bitcoin _ a Hb).
      destruct (segwit_prefixed a) eqn:E; rewrite (canonicalize_bitcoin _ _ Hb).
      * rewrite segwit_prefixed_lower, segwit_prefixed_strip, E.
        now rewrite strip_lower, strip_strip, lower_lower.
      * now rewrite segwit_prefixed_strip, E, strip_strip.
    + rewrite !(canonicalize_other _ _ He Hb). apply strip_strip.
Qed.

Lemma canonicalize_upper_chain c a : canonicalize (Str.upper c) a = canonicalize c a.
Proof. unfold canonicalize. now rewrite upper_upper. Qed.

Lemma validate_upper_chain c a : syntactic_validate (Str.upper c) a = syntactic_validate c a.
Proof. unfold syntactic_validate. now rewrite upper_upper. Qed.

(** X4. Whatever document was loaded, every pair of the loaded set has
    an upper-case tag and an address that is its own canonical form under
    that tag. *)
Theorem loaded_pairs_canonical fromisoformat data S lv k v :
  load_sanctioned_addresses fromisoformat data = Ok (S, lv) ->
  (k, v) ∈ S ->
  Str.upper k = k /\ canonicalize k v = v.
Proof.
  intros H Hin. apply load_Ok_inv in H as (items & _ & _ & Hload).
  apply load_entries_Ok in Hload as [_ Hmem]. apply Hmem in Hin.
  destruct Hin as [Hin | (item & c & a & _ & _ & Hp)]; [now apply elem_of_empty in Hin|].
  unfold stored_pair in Hp. injection Hp as -> ->. split.
  - apply upper_upper.
  - rewrite canonicalize_upper_chain. apply canonicalize_fixed.
Qed.

Lemma loaded_pairs_canonical_witness :
  let entry := JDict {[ "chain" := JStr "eth"; "address" := JStr " 0xAB" ]} in
  let data := JDict {[ "addresses" := JList [entry] ]} in
  exists S lv,
    load_sanctioned_addresses Iso.fromisoformat_seconds data = Ok (S, lv)
    /\ ("ETH", "0xab") ∈ S
    /\ Str.upper "ETH" = "ETH" /\ canonicalize "ETH" "0xab" = "0xab".
Proof.
  intros entry data.
  assert (Hok : returns (load_sanctioned_addresses Iso.fromisoformat_seconds data) = true)
    by (vm_compute; reflexivity).
  destruct (load_sanctioned_addresses Iso.fromisoformat_seconds data)
    as [[S lv]|e] eqn:E; [|discriminate Hok].
  assert (Hin : ("ETH", "0xab") ∈ S).
  { apply (loaded_set_elem Iso.fromisoformat_seconds
             {[ "addresses" := JList [entry] ]} [entry] S lv);
      [vm_compute; reflexivity | exact E |].
    exists entry, "eth", " 0xAB". repeat split; try (vm_compute; reflexivity).
    constructor. }
  exists S, lv. split; [reflexivity | split; [exact Hin|]].
  exact (loaded_pairs_canonical Iso.fromisoformat_seconds data S lv "ETH" "0xab" E Hin).
Defined.

(** X5. The loaded set does not depend on the order of the list or on
    repeated entries: two lists with the same items, in documents that
    are otherwise alike, load to the same set and list version. *)
Theorem load_order_irrelevant
    fromisoformat (members : gmap string json) items items' S lv :
  (forall item, item ∈ items <-> item ∈ items') ->
  load_sanctioned_addresses fromisoformat
    (JDict (<["addresses" := JList items]> members)) = Ok (S, lv) ->
  load_sanctioned_addresses fromisoformat
    (JDict (<["addresses" := JList items']> members)) = Ok (S, lv).
Proof.
  intros Hsame H.
  assert (Hget : forall l, <["addresses" := JList l]> members !! "addresses" = Some (JList l))
    by (intros l; apply lookup_insert_eq).
  assert (Hlv : forall l, load_list_version fromisoformat
                            (JDict (<["addresses" := JList l]> members))
                          = load_list_version fromisoformat (JDict members)).
  { intros l. unfold load_list_version. simpl. now rewrite lookup_insert_ne. }
  pose proof (loaded_set_elem _ _ _ _ _ (Hget items) H) as Hmem.
  rewrite (load_of_list _ _ _ (Hget items)), Hlv in H.
  rewrite (load_of_list _ _ _ (Hget items')), Hlv.
  destruct (load_list_version fromisoformat (JDict members)) as [lv0|]; [|discriminate].
  simpl in *.
  destruct (load_entries items ∅) as [S0|] eqn:E; [|discriminate].
  simpl in H. injection H as -> ->.
  apply load_entries_Ok in E as [Hall Hmem0].
  assert (Hall' : Forall (fun item => is_Some (entry_of item)) items').
  { rewrite Forall_forall in *. intros item Hi. apply Hall, Hsame, Hi. }
  destruct (load_entries_accepts items' ∅ Hall') as [S' E'].
  rewrite E'. simpl. f_equal. f_equal.
  apply load_entries_Ok in E' as [_ Hmem'].
  apply set_eq. intros p. rewrite Hmem0, Hmem'. split.
  - intros [Hp | (item & c & a & Hi & He & Hp)]; [now left|].
    right. exists item, c, a. split; [now apply Hsame | auto].
  - intros [Hp | (item & c & a & Hi & He & Hp)]; [now left|].
    right. exists item, c, a. split; [now apply Hsame | auto].
Qed.

Lemma load_order_irrelevant_witness :
  let e1 := JDict {[ "chain" := JStr "eth"; "address" := JStr "0xAB" ]} in
  let e2 := JDict {[ "chain" := JStr "btc"; "address" := JStr "1Ab" ]} in
  exists S lv,
    load_sanctioned_addresses Iso.fromisoformat_seconds
      (JDict (<["addresses" := JList [e1; e2]]> ∅)) = Ok (S, lv)
    /\ load_sanctioned_addresses Iso.fromisoformat_seconds
      (JDict (<["addresses" := JList [e2; e1; e2]]> ∅)) = Ok (S, lv).
Proof.
  intros e1 e2.
  assert (Hok : returns (load_sanctioned_addresses Iso.fromisoformat_seconds
                           (JDict (<["addresses" := JList [e1; e2]]> ∅))) = true)
    by (vm_compute; reflexivity).
  destruct (load_sanctioned_addresses Iso.fromisoformat_seconds
              (JDict (<["addresses" := JList [e1; e2]]> ∅)))
    as [[S lv]|e] eqn:E; [|discriminate Hok].
  exists S, lv. split; [reflexivity|].
  apply (load_order_irrelevant Iso.fromisoformat_seconds ∅ [e1; e2] [e2; e1; e2] S lv);
    [|exact E].
  intros item. rewrite !elem_of_cons, !elem_of_nil. tauto.
Defined.

(** X6. An entry without a [chain] key or without an [address] key is a
    [KeyError] of the whole load, however many well-formed entries come
    before it and whatever follows it. *)
Theorem load_missing_key
    fromisoformat (members entry : gmap string json) pre post lv :
  members !! "addresses" = Some (JList (pre ++ JDict entry :: post)) ->
  load_list_version fromisoformat (JDict members) = Ok lv ->
  Forall (fun item => is_Some (entry_of item)) pre ->
  entry !! "chain" = None \/ entry !! "address" = None ->
  load_sanctioned_addresses fromisoformat (JDict members) = Raise KeyError.
Proof.
  intros Ha Hlv Hpre Hkey. rewrite (load_of_list _ _ _ Ha), Hlv. simpl.
  rewrite (load_entries_stops pre (JDict entry) post ∅ KeyError Hpre); [reflexivity|].
  intros S. unfold load_entry. simpl.
  destruct (entry !! "chain") as [c|] eqn:Ec; simpl; [|reflexivity].
  destruct Hkey as [Hkey | Hkey]; [discriminate | now rewrite Hkey].
Qed.

Lemma load_missing_key_witness :
  let good := JDict {[ "chain" := JStr "eth"; "address" := JStr "0xAB" ]} in
  let entry : gmap string json := {[ "chain" := JStr "btc" ]} in
  let members : gmap string json :=
    {[ "addresses" := JList ([good] ++ JDict entry :: [good]) ]} in
  load_sanctioned_addresses Iso.fromisoformat_seconds (JDict members) = Raise KeyError.
Proof.
  intros good entry members.
  assert (Hok : returns (load_list_version Iso.fromisoformat_seconds (JDict members)) = true)
    by (vm_compute; reflexivity).
  destruct (load_list_version Iso.fromisoformat_seconds (JDict members)) as [lv|e] eqn:E;
    [|discriminate Hok].
  apply (load_missing_key Iso.fromisoformat_seconds members entry [good] [good] lv).
  - vm_compute. reflexivity.
  - exact E.
  - repeat constructor. exists ("eth", "0xAB"). vm_compute. reflexivity.
  - right. vm_compute. reflexivity.
Defined.

(** X7. A timestamp the metadata block carries and that cannot be read
    fails the load before any address is looked at: a value that is not a
    string is a [TypeError], a string the parser refuses is a
    [ValueError], whatever the rest of the document holds. *)
Theorem load_bad_timestamp fromisoformat (members md : gmap string json) v :
  members !! "metadata" = Some (JDict md) ->
  md !! "retrieved_at_utc" = Some v ->
  match v with JStr s => fromisoformat s = None | _ => True end ->
  load_sanctioned_addresses fromisoformat (JDict members)
  = Raise (match v with JStr _ => ValueError | _ => TypeError end).
Proof.
  intros Hm Ht Hv. unfold load_sanctioned_addresses, load_list_version. simpl.
  rewrite Hm. simpl. rewrite Ht. simpl.
  destruct v; simpl; try reflexivity. now rewrite Hv.
Qed.

Lemma load_bad_timestamp_witness :
  let md : gmap string json := {[ "retrieved_at_utc" := JStr "yesterday" ]} in
  let members : gmap string json :=
    {[ "metadata" := JDict md;
       "addresses" := JList [ JDict {[ "chain" := JStr "eth"; "address" := JStr "0xAB" ]} ] ]} in
  load_sanctioned_addresses Iso.fromisoformat_seconds (JDict members) = Raise ValueError.
Proof.
  intros md members.
  apply (load_bad_timestamp Iso.fromisoformat_seconds members md (JStr "yesterday"));
    vm_compute; reflexivity.
Defined.

(** ** What the verdict depends on *)

Lemma outcome_screen c a S V :
  outcome (screen_exact_match c a S V)
  = if syntactic_validate c a then
      if bool_decide ((Str.upper c, canonicalize c a) ∈ S)
      then (true, 100%Z, "exact_match_authoritative_sanctions_address")
      else (false, 0%Z, "no_exact_match")
    else (false, 0%Z, "invalid_address_syntax").
Proof.
  unfold outcome, screen_exact_match.
  destruct (syntactic_validate c a); simpl; [|reflexivity].
  destruct (bool_decide _); reflexivity.
Qed.

(** X8. Whitespace around the address plays no role: two addresses with
    the same trimmed form get the same match flag, score and reason, on
    every chain and against every set. *)
Theorem screen_ignores_surrounding_space c a a' S V :
  Str.strip a = Str.strip a' ->
  outcome (screen_exact_match c a S V) = outcome (screen_exact_match c a' S V).
Proof.
  intros H. rewrite !outcome_screen.
  unfold syntactic_validate, canonicalize. now rewrite H.
Qed.

Lemma screen_ignores_surrounding_space_witness :
  Str.strip "  0x7f367cc41522ce07553e823bf3be79a889debe1b "
  = Str.strip "0x7f367cc41522ce07553e823bf3be79a889debe1b"
  /\ outcome (screen_exact_match "ETH" "  0x7f367cc41522ce07553e823bf3be79a889debe1b "
                demo_set demo_version)
     = outcome (screen_exact_match "ETH" "0x7f367cc41522ce07553e823bf3be79a889debe1b"
                  demo_set demo_version).
Proof.
  split; [vm_compute; reflexivity|].
  apply (screen_ignores_surrounding_space "ETH"
           "  0x7f367cc41522ce07553e823bf3be79a889debe1b "
           "0x7f367cc41522ce07553e823bf3be79a889debe1b" demo_set demo_version).
  vm_compute. reflexivity.
Defined.

(** X9. The case of the chain tag plays no role: two tags with the same
    upper-case form get the same match flag, score and reason for every
    address and every set. *)
Theorem screen_ignores_chain_case c c' a S V :
  Str.upper c = Str.upper c' ->
  outcome (screen_exact_match c a S V) = outcome (screen_exact_match c' a S V).
Proof.
  intros H. rewrite !outcome_screen.
  rewrite <- (validate_upper_chain c), <- (validate_upper_chain c').
  rewrite <- (canonicalize_upper_chain c), <- (canonicalize_upper_chain c').
  now rewrite H.
Qed.

Lemma screen_ignores_chain_case_witness :
  Str.upper "Eth" = Str.upper "ETH"
  /\ outcome (screen_exact_match "Eth" "0x7f367cc41522ce07553e823bf3be79a889debe1b"
                demo_set demo_version)
     = outcome (screen_exact_match "ETH" "0x7f367cc41522ce07553e823bf3be79a889debe1b"
                  demo_set demo_version).
Proof.
  split; [vm_compute; reflexivity|].
  apply (screen_ignores_chain_case "Eth" "ETH"
           "0x7f367cc41522ce07553e823bf3be79a889debe1b" demo_set demo_version).
  vm_compute. reflexivity.
Defined.

(** X10. A larger set never loses a hit: an address that matches against
    a set matches against every set that contains it. *)
Theorem screen_monotone (c a : string) (S S' : gset (string * string)) (V : ListVersion) :
  S ⊆ S' ->
  match_ (screen_exact_match c a S V) = true ->
  match_ (screen_exact_match c a S' V) = true.
Proof.
  intros Hsub. rewrite !match_screen.
  intros [Hv Hin%bool_decide_eq_true_1]%andb_prop. rewrite Hv. simpl.
  apply bool_decide_eq_true_2. now apply Hsub.
Qed.

Lemma screen_monotone_witness :
  let S : gset (string * string) :=
    {[ ("ETH", "0x7f367cc41522ce07553e823bf3be79a889debe1b") ]} in
  S ⊆ demo_set
  /\ match_ (screen_exact_match "ETH" "0x7F367CC41522CE07553E823BF3BE79A889DEBE1B"
               demo_set demo_version) = true.
Proof.
  intros S.
  assert (Hsub : S ⊆ demo_set) by (unfold demo_set; apply union_subseteq_l).
  split; [exact Hsub|].
  apply (screen_monotone "ETH" "0x7F367CC41522CE07553E823BF3BE79A889DEBE1B"
           S demo_set demo_version Hsub).
  vm_compute. reflexivity.
Defined.

(** ** Bitcoin addresses *)



Lemma char_1_or_3_not_b_t c :
  Char.is_1_or_3 c = true ->
  Ascii.eqb "b" (Char.lower c) = false /\ Ascii.eqb "t" (Char.lower c) = false.
Proof. each_char c. Qed.







Lemma startswith_any_head c r :
  Str.startswith_any ["bc1"; "tb1"; "bcrt1"] (String c r) = true ->
  Ascii.eqb "b" c = true \/ Ascii.eqb "t" c = true.
Proof.
  unfold Str.startswith_any. cbn [existsb Str.startswith].
  destruct (Ascii.eqb "b" c), (Ascii.eqb "t" c); auto; discriminate.
Qed.

(** An address with a native-segwit prefix does not match the legacy
    pattern, which begins with 1 or 3. *)
Lemma prefixed_not_base58 a :
  segwit_prefixed a = true -> Re.BTC_BASE58_RE (Str.strip a) = false.
Proof.
  unfold segwit_prefixed, Re.BTC_BASE58_RE.
  destruct (Str.strip a) as [|c r]; [reflexivity|].
  cbn [Str.lower]. intros H%startswith_any_head.
  destruct (Char.is_1_or_3 c) eqn:Ec; [|reflexivity].
  destruct (char_1_or_3_not_b_t _ Ec) as [Hb Ht]. destruct H; congruence.
Qed.

Lemma case_variant_strip a a' :
  Str.lower a = Str.lower a' -> Str.lower (Str.strip a) = Str.lower (Str.strip a').
Proof. intros H. now rewrite <- !strip_lower, H. Qed.

(** X12. Native-segwit addresses are matched without regard to case: on
    a Bitcoin chain tag, two addresses with a segwit prefix that differ
    only in the case of their letters get the same match flag, score and
    reason against every set. *)
Theorem segwit_case_invariance chain a a' S V :
  bitcoin chain ->
  segwit_prefixed a = true ->
  Str.lower a = Str.lower a' ->
  outcome (screen_exact_match chain a S V) = outcome (screen_exact_match chain a' S V).
Proof.
  intros Hb Hp Hcase. pose proof (case_variant_strip _ _ Hcase) as Hs.
  assert (Hp' : segwit_prefixed a' = true)
    by (unfold segwit_prefixed in *; now rewrite <- Hs).
  rewrite !outcome_screen, !(validate_bitcoin _ _ Hb), !(canonicalize_bitcoin _ _ Hb).
  now rewrite Hp, Hp', !prefixed_not_base58, Hs.
Qed.

Lemma segwit_case_invariance_witness :
  outcome (screen_exact_match "BTC" "BC1Qxy2kgdygjrsqtzq2n0yrf2493p83kkfjhx0wlh"
             demo_set demo_version)
  = outcome (screen_exact_match "BTC" "bc1qxy2kgdygjrsqtzq2n0yrf2493p83KKFJHX0WLH"
               demo_set demo_version).
Proof.
  apply (segwit_case_invariance "BTC" "BC1Qxy2kgdygjrsqtzq2n0yrf2493p83kkfjhx0wlh"
           "bc1qxy2kgdygjrsqtzq2n0yrf2493p83KKFJHX0WLH" demo_set demo_version bitcoin_BTC);
    vm_compute; reflexivity.
Defined.

(** ** Canonical forms of valid addresses *)

Lemma validate_canonical chain a :
  syntactic_validate chain a = true ->
  syntactic_validate chain (canonicalize chain a) = true.
Proof.
  intros Hv. destruct (decide (evm_family chain)) as [He|He].
  - rewrite (validate_evm _ _ He) in Hv.
    apply EVM_RE_strip in Hv as (h & Hs & Hlen & Hall).
    rewrite (canonicalize_evm _ _ He), Hs, lower_app.
    apply (validate_0x_hex40 _ _ He). rewrite hex40_lower. unfold hex40.
    now rewrite Hlen, Hall.
  - destruct (decide (bitcoin chain)) as [Hb|Hb].
    + rewrite (canonicalize_bitcoin _ _ Hb). rewrite (validate_bitcoin _ _ Hb) in Hv.
      destruct (segwit_prefixed a) eqn:Ep.
      * rewrite (prefixed_not_base58 _ Ep), orb_false_r in Hv.
        rewrite (validate_bitcoin _ _ Hb).
        now rewrite strip_lower, strip_strip, lower_lower, Hv.
      * now rewrite (validate_bitcoin _ _ Hb), strip_strip.
    + now apply validate_other.
Qed.

(** X13. The canonical form of an address the validator accepts is
    accepted too, and screening it gives the match flag, score and reason
    of the address itself, on every chain and against every set. *)
Theorem screen_canonical_form chain a S V :
  syntactic_validate chain a = true ->
  syntactic_validate chain (canonicalize chain a) = true
  /\ outcome (screen_exact_match chain (canonicalize chain a) S V)
     = outcome (screen_exact_match chain a S V).
Proof.
  intros Hv. pose proof (validate_canonical _ _ Hv) as Hc. split; [exact Hc|].
  now rewrite !outcome_screen, Hv, Hc, canonicalize_fixed.
Qed.

Lemma screen_canonical_form_witness :
  syntactic_validate "ETH" " 0x7F367CC41522CE07553E823BF3BE79A889DEBE1B" = true
  /\ syntactic_validate "ETH"
       (canonicalize "ETH" " 0x7F367CC41522CE07553E823BF3BE79A889DEBE1B") = true
  /\ outcome (screen_exact_match "ETH"
                (canonicalize "ETH" " 0x7F367CC41522CE07553E823BF3BE79A889DEBE1B")
                demo_set demo_version)
     = outcome (screen_exact_match "ETH" " 0x7F367CC41522CE07553E823BF3BE79A889DEBE1B"
                  demo_set demo_version).
Proof.
  assert (Hv : syntactic_validate "ETH" " 0x7F367CC41522CE07553E823BF3BE79A889DEBE1B" = true)
    by (vm_compute; reflexivity).
  split; [exact Hv|].
  exact (screen_canonical_form "ETH" " 0x7F367CC41522CE07553E823BF3BE79A889DEBE1B"
           demo_set demo_version Hv).
Defined.

(** The hypothesis of X13 is needed: the canonical form of a rejected
    address can be an accepted one. *)
Example canonical_of_invalid_is_valid :
  syntactic_validate "ETH" "0X7F367CC41522CE07553E823BF3BE79A889DEBE1B" = false
  /\ syntactic_validate "ETH"
       (canonicalize "ETH" "0X7F367CC41522CE07553E823BF3BE79A889DEBE1B") = true.
Proof. split; vm_compute; reflexivity. Qed.

(** * The OFAC connector *)

(** ** Splitting the type of an identifier *)

Example split_type_text :
  Str.split " - " "Digital Currency Address - XBT" = ["Digital Currency Address"; "XBT"].
Proof. vm_compute. reflexivity. Qed.

Example split_leftmost : Str.split " - " "a - - b" = ["a"; "- b"].
Proof. vm_compute. reflexivity. Qed.

Example split_adjacent : Str.split " - " "a -  - b - " = ["a"; ""; "b"; ""].
Proof. vm_compute. reflexivity. Qed.

Lemma split_from_nonempty sep k s : Str.split_from sep k s <> [].
Proof.
  revert k. induction s as [|c s IH]; intros k; simpl; [discriminate|].
  destruct k; [|apply IH].
  destruct (Str.startswith sep (String c s)); [discriminate|].
  destruct (Str.split_from sep 0 s); discriminate.
Qed.

(** X14. For an identifier type [Digital Currency Address - t] the
    ticker is the text [t] up to its first [ - ], trimmed: [XBT] for
    [Digital Currency Address - XBT]. *)
Theorem ticker_of_type_text t :
  Ofac.ticker_of ("Digital Currency Address - " +:+ t)
  = Str.strip (hd EmptyString (Str.split " - " t)).
Proof.
  unfold Ofac.ticker_of, Str.split. simpl.
  pose proof (split_from_nonempty " - " 0 t).
  destruct (Str.split_from " - " 0 t); [congruence | reflexivity].
Qed.

Example ticker_of_XBT : Ofac.ticker_of "Digital Currency Address - XBT" = "XBT".
Proof. vm_compute. reflexivity. Qed.

Example ticker_of_bare_type : Ofac.ticker_of "Digital Currency Address" = "UNKNOWN".
Proof. vm_compute. reflexivity. Qed.

Example ticker_of_tight_dash : Ofac.ticker_of "Digital Currency Address-XBT" = "UNKNOWN".
Proof. vm_compute. reflexivity. Qed.

(** ** The records of the parser *)

Lemma ticker_of_trimmed t : Str.strip (Ofac.ticker_of t) = Ofac.ticker_of t.
Proof.
  unfold Ofac.ticker_of. destruct (Str.split " - " t) as [|? [|part ?]];
    try reflexivity. apply strip_strip.
Qed.

Lemma address_of_id_fields uid_text name id_elem r :
  Ofac.address_of_id uid_text name id_elem = Some r ->
  Str.strip (Ofac.address r) = Ofac.address r
  /\ Str.strip (Ofac.ticker r) = Ofac.ticker r
  /\ Ofac.uid r <> EmptyString
  /\ Ofac.entity_name r = name.
Proof.
  unfold Ofac.address_of_id.
  destruct (Xml.find "idType" id_elem) as [id_type|]; [|discriminate].
  destruct (Xml.find "idNumber" id_elem) as [id_number|]; [|discriminate].
  destruct (Xml.text id_type) as [t|]; [|discriminate].
  destruct (Xml.text id_number) as [n|]; [|discriminate].
  destruct (_ || _); [discriminate|].
  destruct (Str.startswith _ t); [|discriminate].
  intros [= <-]. simpl. repeat split.
  - apply strip_strip.
  - apply ticker_of_trimmed.
  - destruct uid_text as [[|? ?]|]; discriminate.
Qed.

(** X15. Every record the parser returns has an address and a ticker
    without surrounding whitespace and a uid that is not empty, whatever
    the document. *)
Theorem parsed_records_clean root r :
  r ∈ Ofac.parse_ofac_sdn_xml root ->
  Str.strip (Ofac.address r) = Ofac.address r
  /\ Str.strip (Ofac.ticker r) = Ofac.ticker r
  /\ Ofac.uid r <> EmptyString.
Proof.
  unfold Ofac.parse_ofac_sdn_xml, Ofac.addresses_of_entry.
  intros (entry & _ & Hr)%list_elem_of_In%in_flat_map.
  apply list_elem_of_In, list_elem_of_omap in Hr as (id_elem & _ & Hr).
  apply address_of_id_fields in Hr. tauto.
Qed.

Example parse_sample :
  Ofac.parse_ofac_sdn_xml sample_sdn
  = [ {| Ofac.uid := "36"; Ofac.ticker := "XBT";
         Ofac.address := "1A1zP1eP5QGefi2DMPTfTL5SLmv7DivfNa";
         Ofac.entity_name := None |};
      {| Ofac.uid := "UNKNOWN"; Ofac.ticker := "ETH";
         Ofac.address := "0x7F367CC41522CE07553E823BF3BE79A889DEBE1B";
         Ofac.entity_name := Some "A None" |} ].
Proof. vm_compute. reflexivity. Qed.

Lemma parsed_records_clean_witness :
  let r := {| Ofac.uid := "36"; Ofac.ticker := "XBT";
              Ofac.address := "1A1zP1eP5QGefi2DMPTfTL5SLmv7DivfNa";
              Ofac.entity_name := None |} in
  r ∈ Ofac.parse_ofac_sdn_xml sample_sdn
  /\ Str.strip (Ofac.address r) = Ofac.address r
  /\ Str.strip (Ofac.ticker r) = Ofac.ticker r
  /\ Ofac.uid r <> EmptyString.
Proof.
  intros r.
  assert (H : r ∈ Ofac.parse_ofac_sdn_xml sample_sdn)
    by (rewrite parse_sample; constructor).
  split; [exact H|]. exact (parsed_records_clean sample_sdn r H).
Defined.

(** ** The export by chain *)


(** X16. The list dumped for a chain is in ascending order, holds no
    address twice, and holds exactly the addresses it was made from. *)
Theorem unique_addrs_sorted_set (addrs : list string) :
  Sorted String.le (Ofac.unique_addrs addrs)
  /\ NoDup (Ofac.unique_addrs addrs)
  /\ forall x, x ∈ Ofac.unique_addrs addrs <-> x ∈ addrs.
Proof.
  unfold Ofac.unique_addrs. repeat split.
  - apply (Sorted_merge_sort String.le).
  - rewrite merge_sort_Permutation. apply NoDup_elements.
  - rewrite merge_sort_Permutation, elem_of_elements, elem_of_list_to_set. auto.
  - rewrite merge_sort_Permutation, elem_of_elements, elem_of_list_to_set. auto.
Qed.

Lemma get_append_to chain a k g :
  by_chain_get k (Ofac.append_to chain a g)
  = if decide (k = chain) then Some (default [] (by_chain_get chain g) ++ [a])%list
    else by_chain_get k g.
Proof.
  induction g as [|[k0 a0] g IH]; simpl.
  - destruct (String.eqb_spec chain k); destruct (decide (k = chain)); congruence.
  - destruct (String.eqb_spec k0 chain) as [->|Hne]; simpl.
    + destruct (String.eqb_spec chain k); destruct (decide (k = chain)); congruence.
    + rewrite IH. destruct (String.eqb_spec k0 k) as [->|Hk]; [|reflexivity].
      destruct (decide (k = chain)); congruence.
Qed.

Lemma keys_append_to chain a g k :
  k ∈ (Ofac.append_to chain a g).*1 <-> k = chain \/ k ∈ g.*1.
Proof.
  induction g as [|[k0 a0] g IH]; simpl.
  - rewrite list_elem_of_singleton, elem_of_nil. tauto.
  - destruct (String.eqb_spec k0 chain) as [->|Hne]; simpl.
    + rewrite elem_of_cons. tauto.
    + rewrite !elem_of_cons, IH. tauto.
Qed.

Lemma NoDup_keys_append_to chain a g :
  NoDup g.*1 -> NoDup (Ofac.append_to chain a g).*1.
Proof.
  induction g as [|[k0 a0] g IH]; simpl; intros H.
  - apply NoDup_singleton.
  - apply NoDup_cons in H as [Hk0 Hg].
    destruct (String.eqb_spec k0 chain) as [->|Hne]; simpl.
    + now apply NoDup_cons.
    + apply NoDup_cons. split; [|auto].
      rewrite keys_append_to. intros [->|H]; [congruence | auto].
Qed.

Lemma get_Some_elem_of k a g : by_chain_get k g = Some a -> (k, a) ∈ g.
Proof.
  induction g as [|[k0 a0] g IH]; simpl; [discriminate|].
  destruct (String.eqb_spec k0 k) as [->|Hne].
  - intros [= ->]. constructor.
  - intros H. constructor. auto.
Qed.

Lemma elem_of_get_Some k a g : NoDup g.*1 -> (k, a) ∈ g -> by_chain_get k g = Some a.
Proof.
  induction g as [|[k0 a0] g IH]; simpl; intros Hnd Hin.
  - now apply elem_of_nil in Hin.
  - apply NoDup_cons in Hnd as [Hk0 Hg].
    apply elem_of_cons in Hin as [[= <- <-] | Hin].
    + now rewrite String.eqb_refl.
    + destruct (String.eqb_spec k0 k) as [->|Hne]; [|auto].
      exfalso. apply Hk0. apply list_elem_of_fmap. now exists (k, a).
Qed.

Lemma group_by_chain_snoc l r :
  Ofac.group_by_chain (l ++ [r])%list
  = Ofac.append_to (Ofac.chain_of r) (Ofac.address r) (Ofac.group_by_chain l).
Proof. unfold Ofac.group_by_chain. now rewrite fold_left_app. Qed.

Lemma NoDup_keys_group addresses : NoDup (Ofac.group_by_chain addresses).*1.
Proof.
  induction addresses as [|r l IH] using rev_ind.
  - constructor.
  - rewrite group_by_chain_snoc. now apply NoDup_keys_append_to.
Qed.

Lemma get_group addresses chain :
  by_chain_get chain (Ofac.group_by_chain addresses)
  = match addresses_of_chain chain addresses with
    | [] => None
    | addrs => Some addrs
    end.
Proof.
  unfold addresses_of_chain. induction addresses as [|r l IH] using rev_ind.
  - reflexivity.
  - rewrite group_by_chain_snoc, get_append_to, filter_app, fmap_app.
    destruct (decide (chain = Ofac.chain_of r)) as [->|Hne].
    + rewrite IH. rewrite filter_cons_True by reflexivity. simpl.
      destruct (Ofac.address <$> filter _ l); reflexivity.
    + rewrite IH. rewrite filter_cons_False by congruence.
      simpl. now rewrite app_nil_r.
Qed.

Lemma group_elem_of addresses chain addrs :
  (chain, addrs) ∈ Ofac.group_by_chain addresses
  <-> addrs <> [] /\ addrs = addresses_of_chain chain addresses.
Proof.
  split.
  - intros H%(elem_of_get_Some _ _ _ (NoDup_keys_group addresses)).
    rewrite get_group in H.
    destruct (addresses_of_chain chain addresses); [discriminate|].
    injection H as <-. split; [discriminate | reflexivity].
  - intros [Hne ->]. apply get_Some_elem_of. rewrite get_group.
    destruct (addresses_of_chain chain addresses); [congruence | reflexivity].
Qed.

(** X17. Grouping keeps every address under the chain of its ticker and
    in the order of the records: the list of a chain is the addresses of
    the records of that chain, in their order, a chain without a record
    has no entry, and no chain has two. *)
Theorem group_by_chain_lists addresses :
  NoDup (Ofac.group_by_chain addresses).*1
  /\ forall chain addrs,
       (chain, addrs) ∈ Ofac.group_by_chain addresses
       <-> addrs <> [] /\ addrs = addresses_of_chain chain addresses.
Proof. split; [apply NoDup_keys_group | apply group_elem_of]. Qed.








(** ** File names of the export *)

Lemma length_append s t :
  String.length (s +:+ t) = (String.length s + String.length t)%nat.
Proof. induction s as [|c s IH]; simpl; [reflexivity | now rewrite IH]. Qed.

Lemma append_cancel_r s t u : s +:+ u = t +:+ u -> s = t.
Proof.
  revert t. induction s as [|c s IH]; intros [|d t] H; simpl in H.
  - reflexivity.
  - apply (f_equal String.length) in H. simpl in H. rewrite length_append in H. lia.
  - apply (f_equal String.length) in H. simpl in H. rewrite length_append in H. lia.
  - injection H as -> H. f_equal. now apply IH.
Qed.

Lemma json_name_inj k k' :
  Ofac.json_name k = Ofac.json_name k' -> Str.lower k = Str.lower k'.
Proof.
  unfold Ofac.json_name. intros H.
  apply (String.app_inj "ofac_") in H. now apply append_cancel_r in H.
Qed.

Lemma group_key_has_record addresses chain :
  chain ∈ (Ofac.group_by_chain addresses).*1 ->
  exists r, r ∈ addresses /\ Ofac.chain_of r = chain.
Proof.
  intros ([k addrs] & -> & Hin)%list_elem_of_fmap. simpl.
  apply group_elem_of in Hin as [Hne ->].
  unfold addresses_of_chain in Hne.
  destruct (filter (fun r => Ofac.chain_of r = k) addresses) as [|r l] eqn:E;
    [now destruct Hne|].
  assert (Hr : r ∈ filter (fun r => Ofac.chain_of r = k) addresses)
    by (rewrite E; constructor).
  apply list_elem_of_filter in Hr as [Hk Hr]. eauto.
Qed.

Lemma exported_names addresses :
  (Ofac.exported_lists addresses).*1
  = Ofac.json_name <$> (Ofac.group_by_chain addresses).*1.
Proof.
  unfold Ofac.exported_lists.
  induction (Ofac.group_by_chain addresses) as [|[k a] g IH]; [reflexivity|].
  rewrite !fmap_cons. simpl. f_equal. exact IH.
Qed.

(** X20. The export writes each file once when chains that differ do
    not differ by case only: then no two chains share a file name, and
    no list overwrites another. *)
Theorem export_names_distinct addresses :
  (forall r r', r ∈ addresses -> r' ∈ addresses ->
     Str.lower (Ofac.chain_of r) = Str.lower (Ofac.chain_of r') ->
     Ofac.chain_of r = Ofac.chain_of r') ->
  NoDup (Ofac.exported_lists addresses).*1.
Proof.
  intros Hinj. rewrite exported_names.
  apply NoDup_fmap_2_strong; [|apply NoDup_keys_group].
  intros k k' (r & Hr & <-)%group_key_has_record (r' & Hr' & <-)%group_key_has_record Hn.
  apply Hinj; [assumption..|]. now apply json_name_inj.
Qed.

Lemma export_names_distinct_witness :
  NoDup (Ofac.exported_lists (Ofac.parse_ofac_sdn_xml sample_sdn)).*1.
Proof.
  apply (export_names_distinct (Ofac.parse_ofac_sdn_xml sample_sdn)).
  rewrite parse_sample. intros r r' Hr Hr'.
  rewrite !elem_of_cons, !elem_of_nil in Hr, Hr'.
  destruct Hr as [->|[->|[]]], Hr' as [->|[->|[]]]; vm_compute; congruence.
Defined.

(** The hypothesis of X20 is needed: a ticker outside the table keeps
    its own case, and two chains that differ by case share a file name. *)
Example export_names_collide :
  (Ofac.exported_lists
     [ {| Ofac.uid := "1"; Ofac.ticker := "XBT"; Ofac.address := "1abc";
          Ofac.entity_name := None |};
       {| Ofac.uid := "2"; Ofac.ticker := "btc"; Ofac.address := "1xyz";
          Ofac.entity_name := None |} ])
  = [ ("ofac_btc_addresses.json", ["1abc"]); ("ofac_btc_addresses.json", ["1xyz"]) ].
Proof. vm_compute. reflexivity. Qed.
